(** * Message admission counters, logger fields and peer-score inspection

    A shallow embedding of three pieces of the node:
    - [validation/message_counts.go]: the per signer, slot and round counters
      with [maxMessageCounts], [String], [Validate], [Record] and
      [ReachedLimits];
    - [message/validation/logger_fields.go]: [buildLoggerFields] and
      [AsZapFields];
    - [network/topics]: the per-peer loop of [scoreInspector], and the pubsub
      tracer [psTracer];
    - the beacon client: [Healthy].

    Go's [int] is taken at its 64-bit width with the wrap-around of [+]
    written out; [float64] is the kernel's binary64.  The methods are first
    given on a receiver and a message that are there; the calls with nil
    pointers, and the panics of reading through them, come after. *)

From Stdlib Require Import ZArith Lia PrimFloat FloatOps SpecFloat.
From stdpp Require Import base strings list gmap pretty.

Local Open Scope string_scope.
Local Open Scope Z_scope.

(** ** Go's [int] *)

Module GoInt.

Definition int_min : Z := - 2 ^ 63.
Definition int_max : Z := 2 ^ 63 - 1.

(** The value a two's complement 64-bit register holds for [z]. *)
Definition wrap (z : Z) : Z := (z + 2 ^ 63) mod 2 ^ 64 - 2 ^ 63.

Definition add (a b : Z) : Z := wrap (a + b).

Definition in_range (z : Z) : Prop := int_min <= z <= int_max.

End GoInt.

(** ** Outcomes of a call, and the receiver monad

    A Go call either returns or panics.  A method on [*T] reads and writes
    its receiver: it is a function from the receiver's value before the call
    to an outcome holding the result and the receiver's value after it. *)

Inductive outcome (A : Type) : Type :=
| Returns (a : A)
| Panics (reason : string).
Arguments Returns {A} a.
Arguments Panics {A} reason.

Definition method (S A : Type) : Type := S -> outcome (A * S).

#[export] Instance method_ret {S} : MRet (method S) :=
  fun A (a : A) s => Returns (a, s).

#[export] Instance method_bind {S} : MBind (method S) :=
  fun A B (k : A -> method S B) (m : method S A) s =>
    match m s with
    | Returns (a, s') => k a s'
    | Panics r => Panics r
    end.

Definition get {S} : method S S := fun s => Returns (s, s).

Definition modify {S} (f : S -> S) : method S unit := fun s => Returns (tt, f s).

Definition panic {S A} (reason : string) : method S A := fun _ => Panics reason.

(** ** The external ssv-spec types the counters look at

    Only the fields the code reads are kept. *)

Module specqbft.

(** [type MessageType uint64], an [iota] block. *)
Definition MessageType : Type := Z.
Definition ProposalMsgType : MessageType := 0.
Definition PrepareMsgType : MessageType := 1.
Definition CommitMsgType : MessageType := 2.
Definition RoundChangeMsgType : MessageType := 3.

Record Message : Type := mkMessage {
  MsgType : MessageType;
  Height : Z;
  Round : Z
}.

Record SignedMessage : Type := mkSignedMessage {
  Signers : list Z;
  Message_ : Message
}.

End specqbft.

Module spectypes.

(** [type PartialSigMsgType uint64], an [iota] block. *)
Definition PartialSigMsgType : Type := Z.
Definition PostConsensusPartialSig : PartialSigMsgType := 0.
Definition RandaoPartialSig : PartialSigMsgType := 1.
Definition SelectionProofPartialSig : PartialSigMsgType := 2.
Definition ContributionProofs : PartialSigMsgType := 3.
Definition ValidatorRegistrationPartialSig : PartialSigMsgType := 4.

Record PartialSignatureMessages : Type := mkPartialSignatureMessages {
  Type_ : PartialSigMsgType;
  Slot : Z
}.

Record SignedPartialSignatureMessage : Type := mkSignedPartialSignatureMessage {
  Message_ : PartialSignatureMessages;
  Signer : Z
}.

End spectypes.

(** ** [validation/message_counts.go] *)

Module validation.

Import specqbft spectypes.

Record MessageCounts : Type := mkMessageCounts {
  PreConsensus : Z;
  Proposal : Z;
  Prepare : Z;
  Commit : Z;
  Decided : Z;
  RoundChange : Z;
  PostConsensus : Z
}.

(** maxMessageCounts is the maximum number of acceptable messages from a
    signer within a slot & round. *)
Definition maxMessageCounts (committeeSize : Z) : MessageCounts :=
  {| PreConsensus := 1;
     Proposal := 1;
     Prepare := 1;
     Commit := 1;
     Decided := GoInt.add committeeSize 1;
     RoundChange := 1;
     PostConsensus := 1 |}.

(** The seven kinds of message a counter record has a field for. *)
Inductive MessageKind : Type :=
| KPreConsensus | KProposal | KPrepare | KCommit | KDecided | KRoundChange
| KPostConsensus.

#[export] Instance MessageKind_eq_dec : EqDecision MessageKind.
Proof. solve_decision. Defined.

Definition count (k : MessageKind) (c : MessageCounts) : Z :=
  match k with
  | KPreConsensus => PreConsensus c
  | KProposal => Proposal c
  | KPrepare => Prepare c
  | KCommit => Commit c
  | KDecided => Decided c
  | KRoundChange => RoundChange c
  | KPostConsensus => PostConsensus c
  end.

(** [c.F++] for the field [F] of kind [k]. *)
Definition incr (k : MessageKind) (c : MessageCounts) : MessageCounts :=
  let '(mkMessageCounts pre pro prep com dec rc post) := c in
  match k with
  | KPreConsensus => mkMessageCounts (GoInt.add pre 1) pro prep com dec rc post
  | KProposal => mkMessageCounts pre (GoInt.add pro 1) prep com dec rc post
  | KPrepare => mkMessageCounts pre pro (GoInt.add prep 1) com dec rc post
  | KCommit => mkMessageCounts pre pro prep (GoInt.add com 1) dec rc post
  | KDecided => mkMessageCounts pre pro prep com (GoInt.add dec 1) rc post
  | KRoundChange => mkMessageCounts pre pro prep com dec (GoInt.add rc 1) post
  | KPostConsensus => mkMessageCounts pre pro prep com dec rc (GoInt.add post 1)
  end.

(** [fmt]'s [%v] of an [int]: its decimal numeral. *)
Definition fmt_v (z : Z) : string := pretty z.

Definition String : method MessageCounts string :=
  c ← get;
  mret ("pre-consensus: " ++ fmt_v (PreConsensus c)
        ++ ", proposal: " ++ fmt_v (Proposal c)
        ++ ", prepare: " ++ fmt_v (Prepare c)
        ++ ", commit: " ++ fmt_v (Commit c)
        ++ ", decided: " ++ fmt_v (Decided c)
        ++ ", round change: " ++ fmt_v (RoundChange c)
        ++ ", post-consensus: " ++ fmt_v (PostConsensus c)).

(** Modelled from the spec: the package's [Error] struct and its value
    [ErrUnexpectedMessageType] are declared in a file that is not at hand.
    The spec names the error kind [UnexpectedMessageType] and says it
    carries a description of the conflicting prior state; the code stores
    that description in the field [got] of a copy of the value. *)
Record Error : Type := mkError {
  text : string;
  got : option string
}.

(** Modelled from the spec: the value [ErrUnexpectedMessageType] of the
    missing file, the error of kind [UnexpectedMessageType], before a
    description is stored in it. *)
Definition ErrUnexpectedMessageType : Error :=
  {| text := "unexpected message type"; got := None |}.

(** A Go [error] as [Validate] produces it: a copy of one of the package's
    [Error] values, or what [fmt.Errorf] built from a format. *)
Inductive error : Type :=
| ErrorValue (e : Error)
| Errorf (formatted : string).

(** [msg.Body], an [interface{}], by the dynamic types the type switches
    tell apart.  A body of any other dynamic type (an untyped nil too) is
    only ever formatted with [%d]; the text [fmt] makes of it stands for
    it.  The pointers of the first two cases are not nil, as the decoder
    builds them. *)
Inductive body : Type :=
| SignedMessageBody (m : specqbft.SignedMessage)
| SignedPartialSignatureMessageBody (m : spectypes.SignedPartialSignatureMessage)
| OtherBody (fmt_d : string).

Record DecodedSSVMessage : Type := mkDecodedSSVMessage {
  Body : body
}.

(** [len] of a slice, an [int]. *)
Definition len {A} (l : list A) : Z := Z.of_nat (length l).

(** [err := ErrUnexpectedMessageType; err.got = fmt.Sprintf("<what>, having
    %v", c.String()); return err] *)
Definition unexpected (what : string) : method MessageCounts (option error) :=
  s ← String;
  mret (Some (ErrorValue {| text := text ErrUnexpectedMessageType;
                            got := Some (what ++ ", having " ++ s) |})).

Definition Validate (msg : DecodedSSVMessage) : method MessageCounts (option error) :=
  c ← get;
  match Body msg with
  | SignedMessageBody m =>
      let t := MsgType (specqbft.Message_ m) in
      if t =? ProposalMsgType then
        if (Commit c >? 0) || (Decided c >? 0) || (PostConsensus c >? 0)
        then unexpected "proposal"
        else mret None
      else if t =? PrepareMsgType then
        if (Prepare c >? 0) || (Commit c >? 0) || (Decided c >? 0)
           || (PostConsensus c >? 0)
        then unexpected "prepare"
        else mret None
      else if t =? CommitMsgType then
        if (len (Signers m) =? 1) && (Commit c >? 0) || (Decided c >? 0)
           || (PostConsensus c >? 0)
        then unexpected "commit"
        else if (len (Signers m) >? 1) && (Decided c >? 0)
                || (PostConsensus c >? 0)
        then unexpected "decided"
        else mret None
      else if t =? RoundChangeMsgType then
        if RoundChange c >? 0
        then unexpected "round change"
        else mret None
      else mret None
  | SignedPartialSignatureMessageBody m =>
      let t := Type_ (spectypes.Message_ m) in
      if (t =? RandaoPartialSig) || (t =? SelectionProofPartialSig)
         || (t =? ContributionProofs) || (t =? ValidatorRegistrationPartialSig)
      then
        if PreConsensus c >? 0
        then unexpected "pre-consensus"
        else mret None
      else if t =? PostConsensusPartialSig then
        if PostConsensus c >? 0
        then unexpected "post-consensus"
        else mret None
      else mret None
  | OtherBody d =>
      mret (Some (Errorf ("unexpected message type: " ++ d)))
  end.

Definition Record (msg : DecodedSSVMessage) : method MessageCounts unit :=
  match Body msg with
  | SignedMessageBody m =>
      let t := MsgType (specqbft.Message_ m) in
      if t =? ProposalMsgType then modify (incr KProposal)
      else if t =? PrepareMsgType then modify (incr KPrepare)
      else if t =? CommitMsgType then
        let l := len (Signers m) in
        if l =? 1 then modify (incr KCommit)
        else if l >? 1 then modify (incr KDecided)
        else mret tt
      else if t =? RoundChangeMsgType then modify (incr KRoundChange)
      else mret tt
  | SignedPartialSignatureMessageBody m =>
      let t := Type_ (spectypes.Message_ m) in
      if (t =? RandaoPartialSig) || (t =? SelectionProofPartialSig)
         || (t =? ContributionProofs) || (t =? ValidatorRegistrationPartialSig)
      then modify (incr KPreConsensus)
      else if t =? PostConsensusPartialSig then modify (incr KPostConsensus)
      else mret tt
  | OtherBody _ => panic "unexpected message type"
  end.

Definition ReachedLimits (limits : MessageCounts) : method MessageCounts bool :=
  c ← get;
  mret ((PreConsensus c >=? PreConsensus limits)
        || (Proposal c >=? Proposal limits)
        || (Prepare c >=? Prepare limits)
        || (Commit c >=? Commit limits)
        || (Decided c >=? Decided limits)
        || (RoundChange c >=? RoundChange limits)
        || (PostConsensus c >=? PostConsensus limits)).

(** The kind a message has in the taxonomy of the specification: a [Commit]
    of one signer is of kind Commit, a [Commit] of several is a Decided; the
    partial signatures divide into pre- and post-consensus.  [Record] adds to
    the field of this kind (lemma [Record_kindOf] below). *)
Definition kindOf (msg : DecodedSSVMessage) : option MessageKind :=
  match Body msg with
  | SignedMessageBody m =>
      let t := MsgType (specqbft.Message_ m) in
      if t =? ProposalMsgType then Some KProposal
      else if t =? PrepareMsgType then Some KPrepare
      else if t =? CommitMsgType then
        if len (Signers m) =? 1 then Some KCommit
        else if len (Signers m) >? 1 then Some KDecided
        else None
      else if t =? RoundChangeMsgType then Some KRoundChange
      else None
  | SignedPartialSignatureMessageBody m =>
      let t := Type_ (spectypes.Message_ m) in
      if (t =? RandaoPartialSig) || (t =? SelectionProofPartialSig)
         || (t =? ContributionProofs) || (t =? ValidatorRegistrationPartialSig)
      then Some KPreConsensus
      else if t =? PostConsensusPartialSig then Some KPostConsensus
      else None
  | OtherBody _ => None
  end.

(** [Record] called on the messages of a key one after the other. *)
Fixpoint RecordAll (msgs : list DecodedSSVMessage) : method MessageCounts unit :=
  match msgs with
  | [] => mret tt
  | msg :: rest => _ ← Record msg; RecordAll rest
  end.

(** How many of [msgs] are of kind [k]. *)
Definition occurrences (k : MessageKind) (msgs : list DecodedSSVMessage) : Z :=
  len (filter (fun msg => kindOf msg = Some k) msgs).

(** The zero value of [MessageCounts], the state of a fresh key. *)
Definition zero : MessageCounts := mkMessageCounts 0 0 0 0 0 0 0.

(** Messages of each kind, for the examples. *)
Definition consensus (t : MessageType) (signers : list Z) : DecodedSSVMessage :=
  {| Body := SignedMessageBody
               {| Signers := signers;
                  specqbft.Message_ := {| MsgType := t; Height := 10; Round := 1 |} |} |}.

Definition partial (t : PartialSigMsgType) : DecodedSSVMessage :=
  {| Body := SignedPartialSignatureMessageBody
               {| spectypes.Message_ := {| Type_ := t; Slot := 10 |}; Signer := 3 |} |}.

(** The kinds whose earlier presence makes [Validate] turn a message of kind
    [k] down, read off the tests of [Validate] case by case.  A Proposal is
    not in the list of a Proposal, nor a Commit in that of a Decided. *)
Definition blockers (k : MessageKind) : list MessageKind :=
  match k with
  | KProposal => [KCommit; KDecided; KPostConsensus]
  | KPrepare => [KPrepare; KCommit; KDecided; KPostConsensus]
  | KCommit => [KCommit; KDecided; KPostConsensus]
  | KDecided => [KDecided; KPostConsensus]
  | KRoundChange => [KRoundChange]
  | KPreConsensus => [KPreConsensus]
  | KPostConsensus => [KPostConsensus]
  end.

(** *** The calls, nil pointers included

    [Validate], [Record] and [ReachedLimits] above take a receiver and a
    message that are there.  In Go the receiver and the message are pointers,
    and the body, an interface, may hold a nil pointer of either message
    type; reading through a nil pointer panics.  The calls below take the
    pointers as options, [None] being nil, follow the order in which the
    source reads through them, and hand over to the functions above once what
    is read is there. *)

(** The text of the run-time panic of a nil dereference. *)
Definition nilDereference : string :=
  "runtime error: invalid memory address or nil pointer dereference".

(** The value of [msg.Body]: a pointer of one of the two message types, nil
    or not, or a value of another dynamic type (the untyped nil too). *)
Inductive BodyValue : Type :=
| SignedMessagePointer (m : option specqbft.SignedMessage)
| SignedPartialSignatureMessagePointer
    (m : option spectypes.SignedPartialSignatureMessage)
| OtherValue (fmt_d : string).

(** The struct a non-nil [*queue.DecodedSSVMessage] points to. *)
Record MessageValue : Type := mkMessageValue {
  BodyOf : BodyValue
}.

(** The QBFT types and the partial-signature types the inner switches have
    a case for; each of these cases reads the counts. *)
Definition knownQBFT (t : MessageType) : bool :=
  (t =? ProposalMsgType) || (t =? PrepareMsgType) || (t =? CommitMsgType)
  || (t =? RoundChangeMsgType).

Definition knownPartial (t : PartialSigMsgType) : bool :=
  (t =? RandaoPartialSig) || (t =? SelectionProofPartialSig)
  || (t =? ContributionProofs) || (t =? ValidatorRegistrationPartialSig)
  || (t =? PostConsensusPartialSig).

(** A method run on a receiver that may be nil, at the point where it first
    reads or writes a field of the receiver. *)
Definition onReceiver {A} (c : option MessageCounts) (m : method MessageCounts A)
  : outcome (A * option MessageCounts) :=
  match c with
  | None => Panics nilDereference
  | Some c0 =>
      match m c0 with
      | Returns (a, c') => Returns (a, Some c')
      | Panics reason => Panics reason
      end
  end.

(** [c.Validate(msg)]: [msg.Body] reads through [msg]; [m.Message.MsgType]
    and [m.Message.Type] read through the body pointer; the tests of a case
    read through [c], and every case of the inner switches has one, while a
    type without a case and a body of another type leave [c] alone. *)
Definition ValidateCall (c : option MessageCounts) (msg : option MessageValue)
  : outcome (option error * option MessageCounts) :=
  match msg with
  | None => Panics nilDereference
  | Some msg =>
      match BodyOf msg with
      | SignedMessagePointer None => Panics nilDereference
      | SignedMessagePointer (Some m) =>
          if knownQBFT (MsgType (specqbft.Message_ m))
          then onReceiver c (Validate {| Body := SignedMessageBody m |})
          else Returns (None, c)
      | SignedPartialSignatureMessagePointer None => Panics nilDereference
      | SignedPartialSignatureMessagePointer (Some m) =>
          if knownPartial (Type_ (spectypes.Message_ m))
          then onReceiver c (Validate {| Body := SignedPartialSignatureMessageBody m |})
          else Returns (None, c)
      | OtherValue d =>
          Returns (Some (Errorf ("unexpected message type: " ++ d)), c)
      end
  end.

(** [c.Record(msg)]: the same reads of [msg] and of the body pointer; [c] is
    read only where a count is incremented, which is where the message has
    a kind; a body of another type is the explicit panic. *)
Definition RecordCall (c : option MessageCounts) (msg : option MessageValue)
  : outcome (unit * option MessageCounts) :=
  match msg with
  | None => Panics nilDereference
  | Some msg =>
      match BodyOf msg with
      | SignedMessagePointer None => Panics nilDereference
      | SignedMessagePointer (Some m) =>
          match kindOf {| Body := SignedMessageBody m |} with
          | Some _ => onReceiver c (Record {| Body := SignedMessageBody m |})
          | None => Returns (tt, c)
          end
      | SignedPartialSignatureMessagePointer None => Panics nilDereference
      | SignedPartialSignatureMessagePointer (Some m) =>
          match kindOf {| Body := SignedPartialSignatureMessageBody m |} with
          | Some _ =>
              onReceiver c (Record {| Body := SignedPartialSignatureMessageBody m |})
          | None => Returns (tt, c)
          end
      | OtherValue _ => Panics "unexpected message type"
      end
  end.

(** [c.ReachedLimits(limits)]: [limits] is passed by value, [c.PreConsensus]
    reads through [c] first. *)
Definition ReachedLimitsCall (c : option MessageCounts) (limits : MessageCounts)
  : outcome (bool * option MessageCounts) :=
  onReceiver c (ReachedLimits limits).

End validation.

(** ** [message/validation/logger_fields.go] *)

Module logger_fields.

(** [spectypes.MessageID] through its two getters. *)
Record MessageID : Type := mkMessageID {
  GetDutyExecutorID : list Z;
  GetRoleType : Z
}.

(** [*specqbft.Message] and [*spectypes.PartialSignatureMessages] are the
    bodies of this version of the decoder; [None] is a nil pointer of that
    type inside the interface. *)
Inductive body : Type :=
| MessageBody (m : option specqbft.Message)
| PartialSignatureMessagesBody (m : option spectypes.PartialSignatureMessages)
| OtherBody.

(** [queue.DecodedSSVMessage]: the signed envelope (of which the operator
    ids are read), the embedded [SSVMessage] (its type and id) and the
    decoded body.  The two embedded pointers are not nil, as the decoder
    builds them. *)
Record DecodedSSVMessage : Type := mkDecodedSSVMessage {
  OperatorIDs_ : list Z;
  GetType : Z;
  GetID : MessageID;
  Body : body
}.

(** ConsensusFields provides details about the consensus for a message. *)
Record ConsensusFields : Type := mkConsensusFields {
  Round : Z;
  QBFTMessageType : specqbft.MessageType
}.

(** LoggerFields provides details about a message.  [Consensus] is a
    pointer: [None] is nil. *)
Record LoggerFields : Type := mkLoggerFields {
  DutyExecutorID : list Z;
  Role : Z;
  SSVMessageType : Z;
  Slot : Z;
  Consensus : option ConsensusFields;
  OperatorIDs : list Z
}.

(** The result is a [*LoggerFields]: [None] is nil. *)
Definition buildLoggerFields (decodedMessage : option DecodedSSVMessage)
  : option LoggerFields :=
  let consensus := {| Round := 0; QBFTMessageType := 0 |} in
  let descriptor :=
    {| DutyExecutorID := []; Role := 0; SSVMessageType := 0; Slot := 0;
       Consensus := Some consensus; OperatorIDs := [] |} in
  match decodedMessage with
  | None => Some descriptor
  | Some msg =>
      let descriptor :=
        {| DutyExecutorID := GetDutyExecutorID (GetID msg);
           Role := GetRoleType (GetID msg);
           SSVMessageType := GetType msg;
           Slot := Slot descriptor;
           Consensus := Consensus descriptor;
           OperatorIDs := OperatorIDs_ msg |} in
      match Body msg with
      | MessageBody (Some m) =>
          Some {| DutyExecutorID := DutyExecutorID descriptor;
                  Role := Role descriptor;
                  SSVMessageType := SSVMessageType descriptor;
                  Slot := specqbft.Height m;
                  Consensus :=
                    Some {| Round := specqbft.Round m;
                            QBFTMessageType := specqbft.MsgType m |};
                  OperatorIDs := OperatorIDs descriptor |}
      | PartialSignatureMessagesBody (Some m) =>
          Some {| DutyExecutorID := DutyExecutorID descriptor;
                  Role := Role descriptor;
                  SSVMessageType := SSVMessageType descriptor;
                  Slot := spectypes.Slot m;
                  Consensus := Consensus descriptor;
                  OperatorIDs := OperatorIDs descriptor |}
      | _ => Some descriptor
      end
  end.

(** The fields of a log record the descriptor turns into, by the
    constructor of [logging/fields] or of [zap] that makes them. *)
Inductive zapField : Type :=
| FieldDutyExecutorID (v : list Z)
| FieldRole (v : Z)
| ZapString (key : string) (v : string)
| FieldSlot (v : Z)
| FieldOperatorIDs (v : list Z)
| FieldRound (v : Z).

Section AsZapFields.

(** [ssvmessage.MsgTypeToString] and [ssvmessage.QBFTMsgTypeToString], of a
    package that is not at hand. *)
Variable MsgTypeToString : Z -> string.
Variable QBFTMsgTypeToString : specqbft.MessageType -> string.

(** AsZapFields returns zap logging fields for the descriptor. *)
Definition AsZapFields (d : LoggerFields) : list zapField :=
  let result :=
    [ FieldDutyExecutorID (DutyExecutorID d);
      FieldRole (Role d);
      ZapString "ssv_message_type" (MsgTypeToString (SSVMessageType d));
      FieldSlot (Slot d);
      FieldOperatorIDs (OperatorIDs d) ] in
  match Consensus d with
  | Some consensus =>
      (result ++ [ FieldRound (Round consensus);
                   ZapString "qbft_message_type"
                     (QBFTMsgTypeToString (QBFTMessageType consensus)) ])%list
  | None => result
  end.

End AsZapFields.

(** *** The call, nil pointers included

    The struct behind a non-nil [*queue.DecodedSSVMessage] as it is declared:
    [SignedSSVMessage] and the embedded [SSVMessage] are pointers, [None]
    being nil.  Of the first the operator ids are read, of the second the
    type and the id. *)
Record SSVMessageValue : Type := mkSSVMessageValue {
  MsgType : Z;
  MsgID : MessageID
}.

Record MessageValue : Type := mkMessageValue {
  SignedSSVMessage : option (list Z);
  SSVMessage : option SSVMessageValue;
  BodyOf : body
}.

(** The text of the run-time panic of a nil dereference. *)
Definition nilDereference : string :=
  "runtime error: invalid memory address or nil pointer dereference".

(** [mv.buildLoggerFields(decodedMessage)]: the receiver is not read; a nil
    message returns the fresh descriptor; [GetID] and [GetType] read through
    the embedded [SSVMessage], [SignedSSVMessage.OperatorIDs] through
    [SignedSSVMessage], before the body is looked at. *)
Definition buildLoggerFieldsCall (decodedMessage : option MessageValue)
  : outcome (option LoggerFields) :=
  match decodedMessage with
  | None => Returns (buildLoggerFields None)
  | Some msg =>
      match SSVMessage msg with
      | None => Panics nilDereference
      | Some ssvMessage =>
          match SignedSSVMessage msg with
          | None => Panics nilDereference
          | Some operatorIDs =>
              Returns (buildLoggerFields
                         (Some {| OperatorIDs_ := operatorIDs;
                                  GetType := MsgType ssvMessage;
                                  GetID := MsgID ssvMessage;
                                  Body := BodyOf msg |}))
          end
      end
  end.

End logger_fields.

(** ** [network/topics]: the peer score inspector *)

Module topics.

(** [pubsub.TopicScoreSnapshot], [pubsub.PeerScoreSnapshot] and the part of
    [pubsub.PeerScoreParams] the inspector reads.  [Topics] of a snapshot
    is a Go map; the inspector only ranges over it, and the list holds its
    entries in the order the range yields them. *)
Record TopicScoreSnapshot : Type := mkTopicScoreSnapshot {
  MeshMessageDeliveries : float;
  InvalidMessageDeliveries : float
}.

Record PeerScoreSnapshot : Type := mkPeerScoreSnapshot {
  Score : float;
  Topics : list (string * TopicScoreSnapshot);
  AppSpecificScore : float;
  IPColocationFactor : float;
  BehaviourPenalty : float
}.

Record TopicScoreParams : Type := mkTopicScoreParams {
  MeshMessageDeliveriesThreshold : float
}.

(** The three variables the loop over the topics of a peer updates. *)
Record tally : Type := mkTally {
  filtered : gmap string TopicScoreSnapshot;
  totalInvalidMessages : float;
  totalLowMeshDeliveries : Z
}.

Definition tally0 : tally :=
  {| filtered := ∅; totalInvalidMessages := 0%float; totalLowMeshDeliveries := 0 |}.

(** The body of [for topic, snapshot := range peerScores.Topics]. *)
Definition topicStep (params : gmap string TopicScoreParams)
    (acc : tally) (entry : string * TopicScoreSnapshot) : tally :=
  let '(topic, snapshot) := entry in
  let filtered' :=
    if negb (PrimFloat.eqb (InvalidMessageDeliveries snapshot) 0)
    then <[topic := snapshot]> (filtered acc)
    else filtered acc in
  let total' :=
    if PrimFloat.ltb 0 (InvalidMessageDeliveries snapshot)
    then PrimFloat.add (totalInvalidMessages acc)
                       (PrimFloat.sqrt (InvalidMessageDeliveries snapshot))
    else totalInvalidMessages acc in
  let low' :=
    match params !! topic with
    | Some topicParams =>
        if PrimFloat.ltb (MeshMessageDeliveries snapshot)
                         (MeshMessageDeliveriesThreshold topicParams)
        then GoInt.add (totalLowMeshDeliveries acc) 1
        else totalLowMeshDeliveries acc
    | None => totalLowMeshDeliveries acc
    end in
  {| filtered := filtered';
     totalInvalidMessages := total';
     totalLowMeshDeliveries := low' |}.

Definition topicLoop (params : gmap string TopicScoreParams)
    (entries : list (string * TopicScoreSnapshot)) : tally :=
  fold_left (topicStep params) entries tally0.

(** The [zap] fields of a log record, by constructor and key. *)
Inductive Field : Type :=
| PeerID (pid : string)
| PeerScore (score : float)
| Any (key : string) (value : gmap string TopicScoreSnapshot)
| Float64 (key : string) (value : float)
| Bool (key : string) (value : bool).

(** [float64(n)] for an [int]: the nearest binary64, ties to even. *)
Definition float64_of_int (n : Z) : float :=
  SF2Prim (binary_normalize prec emax n 0 false).

(** What the inspector does for one peer: the record it logs at debug
    level and the value it sets the peer's gauge to. *)
Definition inspectPeer (peerConnected : string -> bool)
    (params : gmap string TopicScoreParams)
    (pid : string) (peerScores : PeerScoreSnapshot) : list Field * float :=
  let t := topicLoop params (Topics peerScores) in
  let fields :=
    [ PeerID pid;
      PeerScore (Score peerScores);
      Any "invalid_messages" (filtered t);
      Float64 "ip_colocation" (IPColocationFactor peerScores);
      Float64 "behaviour_penalty" (BehaviourPenalty peerScores);
      Float64 "app_specific_penalty" (AppSpecificScore peerScores);
      Float64 "total_low_mesh_deliveries" (float64_of_int (totalLowMeshDeliveries t));
      Float64 "total_invalid_messages" (totalInvalidMessages t);
      Any "invalid_messages" (filtered t) ] in
  let fields :=
    if peerConnected pid then (fields ++ [Bool "connected" true])%list else fields in
  let fields :=
    if PrimFloat.ltb (Score peerScores) (-1000)%float
    then (fields ++ [Bool "low_score" true])%list else fields in
  (fields, Score peerScores).

(** The inspection function [scoreInspector] returns, applied to the
    entries of [scores] in the order its range yields them: the log
    records and gauge updates, peer by peer. *)
Definition scoreInspector (peerConnected : string -> bool)
    (params : gmap string TopicScoreParams)
    (scores : list (string * PeerScoreSnapshot))
  : list (string * (list Field * float)) :=
  map (fun '(pid, peerScores) =>
         (pid, inspectPeer peerConnected params pid peerScores)) scores.

(** The value logged under [total_invalid_messages] for a peer. *)
Definition invalidMessageTally (params : gmap string TopicScoreParams)
    (peerScores : PeerScoreSnapshot) : float :=
  totalInvalidMessages (topicLoop params (Topics peerScores)).

(** The tally in the words of the specification: the sum, over
    the topics whose [InvalidMessageDeliveries] is strictly positive, of
    its square root, added up in the order of the entries. *)
Definition sumSqrtPositive (entries : list (string * TopicScoreSnapshot)) : float :=
  fold_left PrimFloat.add
    (map (fun e => PrimFloat.sqrt (InvalidMessageDeliveries e.2))
         (filter (fun e => PrimFloat.ltb 0 (InvalidMessageDeliveries e.2) = true)
                 entries))
    0%float.

(** Whether a topic counts as low on mesh deliveries: its parameters are
    known and its deliveries are below their threshold. *)
Definition lowMesh (params : gmap string TopicScoreParams)
    (entry : string * TopicScoreSnapshot) : bool :=
  match params !! entry.1 with
  | Some topicParams =>
      PrimFloat.ltb (MeshMessageDeliveries entry.2)
                    (MeshMessageDeliveriesThreshold topicParams)
  | None => false
  end.

End topics.

(** ** [network/topics/tracer.go]: the pubsub tracer *)

Module tracer.

(** pubsub tracer states *)
Definition psTraceStateWithReporting : Z := 0.
Definition psTraceStateWithLogging : Z := 1.

(** A [*ps_pb.TraceEvent] through the one thing the tracer reads of it,
    [evt.GetType().String()]. *)
Record TraceEvent : Type := mkTraceEvent {
  GetTypeString : string
}.

(** psTracer helps to trace pubsub events; its logger carries the field
    [who] and writes to the sink below. *)
Record psTracer : Type := mkPsTracer {
  state : Z
}.

(** A debug record: its message and its fields. *)
Definition record : Type := string * list (string * string).

(** What a tracer acts on: for each label of [metricsPubsubTrace] the number
    of times [Inc] was called on it, and the records handed to the logger. *)
Record sinks : Type := mkSinks {
  metricsPubsubTrace : gmap string nat;
  logged : list record
}.

(** newTracer creates an instance of psTracer *)
Definition newTracer (withLogging : bool) : psTracer :=
  let state := psTraceStateWithReporting in
  let state := if withLogging then psTraceStateWithLogging else state in
  {| state := state |}.

(** report reports metric *)
Definition report (evt : TraceEvent) (s : sinks) : sinks :=
  {| metricsPubsubTrace :=
       <[GetTypeString evt := S (default 0%nat (metricsPubsubTrace s !! GetTypeString evt))]>
         (metricsPubsubTrace s);
     logged := logged s |}.

(** log prints event to log *)
Definition log (evt : TraceEvent) (s : sinks) : sinks :=
  {| metricsPubsubTrace := metricsPubsubTrace s;
     logged := (logged s ++ [("pubsub event",
                              [("who", "pubsubTrace"); ("type", GetTypeString evt)])])%list |}.

(** Trace handles events, implementation of pubsub.EventTracer *)
Definition Trace (pst : psTracer) (evt : TraceEvent) (s : sinks) : sinks :=
  let s := report evt s in
  if state pst <? psTraceStateWithLogging then s
  else log evt s.

(** [Trace] called on the events of a run one after the other. *)
Definition TraceAll (pst : psTracer) (evts : list TraceEvent) (s : sinks) : sinks :=
  fold_left (fun s evt => Trace pst evt s) evts s.

End tracer.

(** ** The beacon client: [Healthy] *)

Module goclient.

Definition statusUnknown : Z := 0.
Definition statusSyncing : Z := 1.
Definition statusOK : Z := 2.

(** [apiv1.SyncState], the two flags [Healthy] reads. *)
Record SyncState : Type := mkSyncState {
  IsSyncing : bool;
  IsOptimistic : bool
}.

(** Healthy returns if beacon node is currently healthy: responds to
    requests, not in the syncing state, not optimistic.  The arguments are
    what [gc.client.NodeSyncing] returned: an error or nil, and a response
    or nil whose [Data] is a state or nil.  The receiver state is the value
    of the gauge [metricsBeaconNodeStatus]. *)
Definition Healthy (err : option string) (nodeSyncingResp : option (option SyncState))
  : method Z (option string) :=
  match err with
  | Some e =>
      _ ← modify (fun _ => statusUnknown);
      mret (Some ("failed to obtain node syncing status: " ++ e))
  | None =>
      match nodeSyncingResp with
      | None =>
          _ ← modify (fun _ => statusUnknown);
          mret (Some "node syncing response is nil")
      | Some None =>
          _ ← modify (fun _ => statusUnknown);
          mret (Some "node syncing data is nil")
      | Some (Some syncState) =>
          _ ← modify (fun _ => statusSyncing);
          if IsSyncing syncState then mret (Some "syncing")
          else if IsOptimistic syncState then mret (Some "optimistic")
          else
            _ ← modify (fun _ => statusOK);
            mret None
      end
  end.

End goclient.

(** * Properties *)

(** ** The peer score inspector's tally of invalid messages *)

Module topics_facts.

Import topics.

Section Loop.

Variable params : gmap string TopicScoreParams.

(** The loop adds to the running total exactly what the filtered sum
    adds, whatever the total was before. *)
Lemma topicLoop_total_from entries : forall acc,
  totalInvalidMessages (fold_left (topicStep params) entries acc)
  = fold_left PrimFloat.add
      (map (fun e => PrimFloat.sqrt (InvalidMessageDeliveries e.2))
           (filter (fun e => PrimFloat.ltb 0 (InvalidMessageDeliveries e.2) = true)
                   entries))
      (totalInvalidMessages acc).
Proof.
  induction entries as [|[topic snapshot] entries IH]; intros acc.
  - reflexivity.
  - cbn [fold_left]. rewrite IH, filter_cons. cbn [snd].
    unfold topicStep. cbn [totalInvalidMessages].
    destruct (PrimFloat.ltb 0 (InvalidMessageDeliveries snapshot)) eqn:Hpos.
    + rewrite decide_True by reflexivity. reflexivity.
    + rewrite decide_False by discriminate. reflexivity.
Qed.

(** A topic without invalid deliveries leaves the total as it was. *)
Lemma topicStep_zero acc topic snapshot :
  InvalidMessageDeliveries snapshot = 0%float ->
  totalInvalidMessages (topicStep params acc (topic, snapshot))
  = totalInvalidMessages acc.
Proof.
  intros H. unfold topicStep. cbn [totalInvalidMessages]. rewrite H.
  reflexivity.
Qed.

Lemma topicLoop_zeros entries : forall acc,
  Forall (fun e => InvalidMessageDeliveries e.2 = 0%float) entries ->
  totalInvalidMessages (fold_left (topicStep params) entries acc)
  = totalInvalidMessages acc.
Proof.
  induction entries as [|[topic snapshot] entries IH]; intros acc Hall.
  - reflexivity.
  - inversion Hall as [|e l Hz Hrest]; subst. cbn [fold_left].
    rewrite IH by assumption. apply topicStep_zero. exact Hz.
Qed.

Lemma topicStep_four acc topic snapshot :
  InvalidMessageDeliveries snapshot = 4%float ->
  totalInvalidMessages acc = 0%float ->
  totalInvalidMessages (topicStep params acc (topic, snapshot)) = 2%float.
Proof.
  intros H4 H0. unfold topicStep. cbn [totalInvalidMessages].
  rewrite H4, H0. reflexivity.
Qed.

End Loop.

(** C8. For every peer snapshot the record the inspector logs carries, under
    [total_invalid_messages], the sum over the topics whose
    [InvalidMessageDeliveries] is strictly positive of its square root (in
    binary64, in the order the topics are visited); and a peer with
    [InvalidMessageDeliveries] equal to 4 on exactly one topic and to 0 on
    all others gets a tally of exactly 2. *)
Theorem invalid_message_tally_sum_sqrt
    (peerConnected : string -> bool) (params : gmap string TopicScoreParams)
    (pid : string) (peerScores : PeerScoreSnapshot) :
  invalidMessageTally params peerScores = sumSqrtPositive (Topics peerScores)
  /\ Float64 "total_invalid_messages" (sumSqrtPositive (Topics peerScores))
     ∈ (inspectPeer peerConnected params pid peerScores).1
  /\ forall before topic snapshot after,
       Topics peerScores = (before ++ (topic, snapshot) :: after)%list ->
       InvalidMessageDeliveries snapshot = 4%float ->
       Forall (fun e => InvalidMessageDeliveries e.2 = 0%float)
              (before ++ after)%list ->
       invalidMessageTally params peerScores = 2%float.
Proof.
  assert (Hsum : invalidMessageTally params peerScores
                 = sumSqrtPositive (Topics peerScores)).
  { unfold invalidMessageTally, topicLoop, sumSqrtPositive.
    rewrite topicLoop_total_from. reflexivity. }
  split; [exact Hsum|]. split.
  - rewrite <- Hsum. unfold inspectPeer, invalidMessageTally.
    destruct (peerConnected pid), (PrimFloat.ltb (Score peerScores) (-1000));
      cbn [fst]; repeat (rewrite elem_of_app || rewrite elem_of_cons);
      tauto.
  - intros before topic snapshot after Htopics H4 Hzeros.
    apply Forall_app in Hzeros as [Hb Ha].
    unfold invalidMessageTally, topicLoop. rewrite Htopics.
    rewrite fold_left_app. cbn [fold_left].
    rewrite topicLoop_zeros by exact Ha.
    apply topicStep_four; [exact H4|].
    rewrite topicLoop_zeros by exact Hb. reflexivity.
Qed.

(** One peer on three topics: 4 invalid deliveries on the second, none on
    the others. *)
Lemma invalid_message_tally_sum_sqrt_witness :
  let s0 := {| MeshMessageDeliveries := 1%float; InvalidMessageDeliveries := 0%float |} in
  let s4 := {| MeshMessageDeliveries := 0%float; InvalidMessageDeliveries := 4%float |} in
  let ps := {| Score := (-3)%float;
               Topics := [("ssv.v2.1", s0); ("ssv.v2.2", s4); ("ssv.v2.3", s0)];
               AppSpecificScore := 0%float; IPColocationFactor := 0%float;
               BehaviourPenalty := 0%float |} in
  invalidMessageTally ∅ ps = 2%float.
Proof.
  intros s0 s4 ps.
  apply (proj2 (proj2 (invalid_message_tally_sum_sqrt (fun _ => true) ∅ "peer" ps))
           [("ssv.v2.1", s0)] "ssv.v2.2" s4 [("ssv.v2.3", s0)]).
  - reflexivity.
  - reflexivity.
  - repeat constructor.
Defined.

End topics_facts.


(** ** Go's [int] *)

Module GoInt_facts.

Import GoInt.

Lemma wrap_in_range z : in_range z -> wrap z = z.
Proof.
  unfold in_range, int_min, int_max, wrap. intros H.
  rewrite Z.mod_small; lia.
Qed.

Lemma add_no_overflow a b : in_range (a + b) -> add a b = a + b.
Proof. apply wrap_in_range. Qed.

Lemma add_1 a : 0 <= a < int_max -> add a 1 = a + 1.
Proof.
  intros H. apply add_no_overflow. unfold in_range, int_min, int_max in *. lia.
Qed.

(** Past the largest [int] the sum comes out negative. *)
Lemma add_max_1 : add int_max 1 = int_min.
Proof. reflexivity. Qed.

End GoInt_facts.

(** ** The counters *)

Module validation_facts.

Import specqbft spectypes validation.

(** Unfolds the receiver monad to the state-passing function it stands for. *)
Ltac run :=
  cbv [mbind mret method_bind method_ret get modify panic unexpected String].

(** Splits on every test left in the goal. *)
Ltac branches :=
  repeat match goal with
         | |- context [if ?b then _ else _] => destruct b eqn:?
         end.

(** *** [maxMessageCounts] *)

(** C4. For a committee of size C, at least 1 and such that C+1 is still an
    [int], the limits are C+1 for Decided and 1 for each of PreConsensus,
    Proposal, Prepare, Commit, RoundChange and PostConsensus. *)
Theorem maxMessageCounts_limits (C : Z) :
  1 <= C < GoInt.int_max ->
  let limits := maxMessageCounts C in
  Decided limits = C + 1
  /\ PreConsensus limits = 1 /\ Proposal limits = 1 /\ Prepare limits = 1
  /\ Commit limits = 1 /\ RoundChange limits = 1 /\ PostConsensus limits = 1.
Proof.
  intros HC. cbn. split; [|repeat split].
  apply GoInt_facts.add_1. lia.
Qed.

Lemma maxMessageCounts_limits_witness :
  1 <= 4 < GoInt.int_max
  /\ Decided (maxMessageCounts 4) = 5
  /\ Commit (maxMessageCounts 4) = 1.
Proof.
  assert (H : 1 <= 4 < GoInt.int_max) by (unfold GoInt.int_max; lia).
  split; [exact H|].
  pose proof (maxMessageCounts_limits 4 H) as L. cbv zeta in L.
  split; [apply L|apply L].
Defined.

(** *** [ReachedLimits] *)

Lemma count_kinds (P : MessageKind -> Prop) :
  (exists k, P k) <->
  P KPreConsensus \/ P KProposal \/ P KPrepare \/ P KCommit \/ P KDecided
  \/ P KRoundChange \/ P KPostConsensus.
Proof.
  split.
  - intros [[] H]; tauto.
  - intros H. decompose [or] H; eauto.
Qed.

(** C6. [ReachedLimits] returns true exactly when the count of at least one
    of the seven kinds is greater than or equal to the limit of that kind (so
    also when a single kind is at its limit and every other count is zero);
    it leaves the counts as they are. *)
Theorem ReachedLimits_iff_some_kind (c limits : MessageCounts) :
  exists b : bool,
    ReachedLimits limits c = Returns (b, c)
    /\ (b = true <-> exists k, count k c >= count k limits).
Proof.
  eexists. split; [reflexivity|].
  rewrite count_kinds. cbn [count].
  rewrite !orb_true_iff, !Z.geb_le. lia.
Qed.

(** *** [Validate] *)

(** [Validate] returns on every message, and returns the counts it was
    given. *)
Lemma Validate_frame (msg : DecodedSSVMessage) (c : MessageCounts) :
  exists r : option error, Validate msg c = Returns (r, c).
Proof.
  unfold Validate. run.
  destruct (Body msg) as [m|m|d]; branches; eexists; reflexivity.
Qed.

(** C9. [Validate] never writes to the counts: whatever the message and the
    counts, it returns, with an error or without, and the counts after the
    call are the counts before it. *)
Theorem Validate_preserves_counts (msg : DecodedSSVMessage) (c : MessageCounts) :
  exists r : option error, Validate msg c = Returns (r, c).
Proof.
  unfold Validate. run.
  destruct (Body msg) as [m|m|d].
  - (* a consensus message: one test per QBFT type, none writes *)
    branches; eexists; reflexivity.
  - (* a partial-signature message *)
    branches; eexists; reflexivity.
  - (* any other body: the error of the outer default *)
    eexists; reflexivity.
Qed.

(** *** [Record] *)

(** What [Record] does, by the kind of the message: it panics on a body that
    is neither of the two message types, adds one to the field of the kind
    otherwise, and changes nothing when the message has no kind. *)
Lemma Record_kindOf (msg : DecodedSSVMessage) (c : MessageCounts) :
  Record msg c =
  match Body msg with
  | OtherBody _ => Panics "unexpected message type"
  | _ => Returns (tt, match kindOf msg with
                      | Some k => incr k c
                      | None => c
                      end)
  end.
Proof.
  unfold Record, kindOf. run.
  destruct (Body msg) as [m|m|d]; branches; reflexivity.
Qed.

(** C10. [Record] of a Commit message without any signer leaves every field
    of the counts as it was. *)
Theorem Record_commit_no_signers (m : SignedMessage) (c : MessageCounts) :
  MsgType (specqbft.Message_ m) = CommitMsgType ->
  Signers m = [] ->
  Record {| Body := SignedMessageBody m |} c = Returns (tt, c).
Proof.
  intros Ht Hs. unfold Record. cbn [Body]. rewrite Ht, Hs. reflexivity.
Qed.

Lemma Record_commit_no_signers_witness :
  Record (consensus CommitMsgType []) (mkMessageCounts 1 1 1 0 0 0 0)
  = Returns (tt, mkMessageCounts 1 1 1 0 0 0 0).
Proof.
  apply Record_commit_no_signers; reflexivity.
Defined.

(** *** Unrecognized messages *)

(** A consensus message of a QBFT type that is none of the four falls out of
    the inner switch, which has no default: it is accepted. *)
Lemma Validate_unknown_qbft_type (m : SignedMessage) (c : MessageCounts) :
  MsgType (specqbft.Message_ m) <> ProposalMsgType ->
  MsgType (specqbft.Message_ m) <> PrepareMsgType ->
  MsgType (specqbft.Message_ m) <> CommitMsgType ->
  MsgType (specqbft.Message_ m) <> RoundChangeMsgType ->
  Validate {| Body := SignedMessageBody m |} c = Returns (None, c).
Proof.
  intros H0 H1 H2 H3. unfold Validate. run. cbn [Body].
  apply Z.eqb_neq in H0, H1, H2, H3. rewrite H0, H1, H2, H3. reflexivity.
Qed.

(** A partial-signature message of a type that is none of the five reaches
    the empty default of the inner switch: it is accepted. *)
Lemma Validate_unknown_partial_type
    (m : SignedPartialSignatureMessage) (c : MessageCounts) :
  Type_ (spectypes.Message_ m) <> RandaoPartialSig ->
  Type_ (spectypes.Message_ m) <> SelectionProofPartialSig ->
  Type_ (spectypes.Message_ m) <> ContributionProofs ->
  Type_ (spectypes.Message_ m) <> ValidatorRegistrationPartialSig ->
  Type_ (spectypes.Message_ m) <> PostConsensusPartialSig ->
  Validate {| Body := SignedPartialSignatureMessageBody m |} c = Returns (None, c).
Proof.
  intros H0 H1 H2 H3 H4. unfold Validate. run. cbn [Body].
  apply Z.eqb_neq in H0, H1, H2, H3, H4. rewrite H0, H1, H2, H3, H4.
  reflexivity.
Qed.

(** C2. Evaluation of [Validate] on unrecognized messages: a consensus
    message of QBFT type 99 and a partial-signature message of type 99,
    neither of them a type of the taxonomy, are accepted whatever the signers
    and the counts, where the specification has them rejected as
    [UnexpectedMessageType]; a body of another Go type is rejected, with the
    error [fmt.Errorf] builds and not with a copy of
    [ErrUnexpectedMessageType]. *)
Theorem Validate_unrecognized_types :
  (forall signers c, Validate (consensus 99 signers) c = Returns (None, c))
  /\ (forall c, Validate (partial 99) c = Returns (None, c))
  /\ (forall d c,
        Validate {| Body := OtherBody d |} c
        = Returns (Some (Errorf ("unexpected message type: " ++ d)), c)).
Proof.
  split; [|split].
  - intros signers c. apply Validate_unknown_qbft_type; discriminate.
  - intros c. apply Validate_unknown_partial_type; discriminate.
  - reflexivity.
Qed.

(** *** Panics *)

(** [Record] of a message whose body is of neither message type does not
    return, it panics. *)
Lemma Record_unrecognized_body_panics :
  Record {| Body := OtherBody "%!d(<nil>)" |} zero = Panics "unexpected message type"
  /\ ~ exists r, Record {| Body := OtherBody "%!d(<nil>)" |} zero = Returns r.
Proof.
  split; [reflexivity|]. intros [r H]. discriminate H.
Qed.

(** On a receiver and a message that are there: [Validate] and
    [ReachedLimits] return, a body of an unrecognized type included, and
    [buildLoggerFields] returns a descriptor; [Record] returns on every
    message whose body is a consensus or a partial-signature message, and
    panics on a body of any other type. *)
Lemma only_Record_of_unrecognized_body_panics :
  (forall msg c, exists r, Validate msg c = Returns (r, c))
  /\ (forall limits c, exists b, ReachedLimits limits c = Returns (b, c))
  /\ (forall decodedMessage,
        exists d, logger_fields.buildLoggerFields decodedMessage = Some d)
  /\ (forall msg c,
        match Body msg with
        | OtherBody _ => Record msg c = Panics "unexpected message type"
        | _ => exists c', Record msg c = Returns (tt, c')
        end).
Proof.
  split; [exact Validate_frame|].
  split; [intros limits c; eexists; reflexivity|].
  split.
  - intros [msg|]; [|eexists; reflexivity].
    unfold logger_fields.buildLoggerFields.
    destruct (logger_fields.Body msg) as [[m|]|[m|]|]; eexists; reflexivity.
  - intros msg c. rewrite Record_kindOf.
    destruct (Body msg); [eexists; reflexivity..|reflexivity].
Qed.

(** *** Repeated Decided messages *)

(** Once a Decided is counted, [Validate] turns every further Decided down,
    whatever the committee size. *)
Lemma Validate_decided_after_decided (msg : DecodedSSVMessage) (c : MessageCounts) :
  kindOf msg = Some KDecided ->
  Decided c > 0 ->
  exists e, Validate msg c = Returns (Some (ErrorValue e), c)
            /\ text e = text ErrUnexpectedMessageType.
Proof.
  intros Hk Hd. apply Z.gtb_gt in Hd.
  unfold kindOf in Hk. unfold Validate. run.
  destruct (Body msg) as [m|m|d]; [| |discriminate].
  - repeat match type of Hk with
           | context [if ?b then _ else _] => destruct b eqn:?
           end; try discriminate.
    rewrite Hd, orb_true_r. cbn. eexists. split; reflexivity.
  - repeat match type of Hk with
           | context [if ?b then _ else _] => destruct b eqn:?
           end; discriminate.
Qed.

(** C1. Evaluation at a committee of four: the first Decided (a Commit of
    three signers) is validated and recorded on fresh counts; the limits of
    the committee, with 5 for Decided, are not reached; and [Validate] turns
    the second Decided down with [ErrUnexpectedMessageType], where the
    specification has the first five accepted. *)
Theorem second_Decided_rejected :
  let d1 := consensus CommitMsgType [1; 2; 3] in
  let d2 := consensus CommitMsgType [1; 2; 4] in
  let c1 := mkMessageCounts 0 0 0 0 1 0 0 in
  Decided (maxMessageCounts 4) = 5
  /\ Validate d1 zero = Returns (None, zero)
  /\ Record d1 zero = Returns (tt, c1)
  /\ ReachedLimits (maxMessageCounts 4) c1 = Returns (false, c1)
  /\ Validate d2 c1
     = Returns (Some (ErrorValue
                        {| text := "unexpected message type";
                           got := Some "commit, having pre-consensus: 0, proposal: 0, prepare: 0, commit: 0, decided: 1, round change: 0, post-consensus: 0" |}),
                c1).
Proof. repeat split. Qed.

(** *** Counts and histories *)

Lemma count_incr (k k0 : MessageKind) (c : MessageCounts) :
  count k (incr k0 c)
  = if decide (k = k0) then GoInt.add (count k c) 1 else count k c.
Proof. destruct c, k, k0; reflexivity. Qed.

Lemma occurrences_cons (k : MessageKind) msg msgs :
  occurrences k (msg :: msgs)
  = (if decide (kindOf msg = Some k) then 1 else 0) + occurrences k msgs.
Proof.
  unfold occurrences, len. rewrite filter_cons.
  destruct (decide (kindOf msg = Some k)); cbn [length]; lia.
Qed.

Lemma occurrences_bounds (k : MessageKind) msgs :
  0 <= occurrences k msgs <= len msgs.
Proof.
  unfold occurrences, len.
  pose proof (length_filter (fun msg => kindOf msg = Some k) msgs). lia.
Qed.

(** No message of kind [k] among [msgs] means no occurrence, and back. *)
Lemma occurrences_zero (k : MessageKind) msgs :
  occurrences k msgs = 0 <-> forall msg, msg ∈ msgs -> kindOf msg <> Some k.
Proof.
  induction msgs as [|m msgs IH].
  - split; [intros _ msg Hin; inversion Hin|reflexivity].
  - rewrite occurrences_cons. pose proof (occurrences_bounds k msgs) as Hb.
    destruct (decide (kindOf m = Some k)) as [Hm|Hm]; split.
    + lia.
    + intros H. exfalso. apply (H m); [left|exact Hm].
    + intros H msg Hin. apply elem_of_cons in Hin as [->|Hin]; [exact Hm|].
      apply IH; [lia|exact Hin].
    + intros H. rewrite Z.add_0_l. apply IH. intros msg Hin.
      apply H. right. exact Hin.
Qed.

(** Recording a history that is not long enough to overflow an [int]
    adds to each count the number of messages of its kind. *)
Lemma RecordAll_counts msgs : forall c c',
  RecordAll msgs c = Returns (tt, c') ->
  (forall k, 0 <= count k c) ->
  (forall k, count k c + len msgs <= GoInt.int_max) ->
  forall k, count k c' = count k c + occurrences k msgs.
Proof.
  induction msgs as [|msg msgs IH]; intros c c' Hrun Hpos Hmax k.
  - cbn in Hrun. injection Hrun as <-. unfold occurrences, len.
    rewrite filter_nil. cbn [length]. lia.
  - cbn [RecordAll] in Hrun. unfold mbind, method_bind in Hrun.
    rewrite Record_kindOf in Hrun.
    assert (Hlen : len (msg :: msgs) = 1 + len msgs)
      by (unfold len; cbn [length]; lia).
    rewrite Hlen in Hmax.
    assert (Hstep : forall k', count k' (match kindOf msg with
                                         | Some k0 => incr k0 c
                                         | None => c
                                         end)
                               = count k' c
                                 + (if decide (kindOf msg = Some k') then 1 else 0)).
    { intros k'. destruct (kindOf msg) as [k0|].
      - rewrite count_incr. destruct (decide (k' = k0)) as [->|Hne].
        + rewrite decide_True by reflexivity.
          apply GoInt_facts.add_1. specialize (Hpos k0). specialize (Hmax k0).
          pose proof (Zle_0_nat (length msgs)). unfold len in Hmax. lia.
        + rewrite decide_False by congruence. lia.
      - rewrite decide_False by discriminate. lia. }
    assert (Hnext : RecordAll msgs (match kindOf msg with
                                    | Some k0 => incr k0 c
                                    | None => c
                                    end) = Returns (tt, c'))
      by (destruct (Body msg); [exact Hrun|exact Hrun|discriminate Hrun]).
    rewrite (IH _ _ Hnext).
    + rewrite Hstep, occurrences_cons. lia.
    + intros k'. rewrite Hstep. specialize (Hpos k').
      destruct (decide (kindOf msg = Some k')); lia.
    + intros k'. rewrite Hstep. specialize (Hmax k').
      destruct (decide (kindOf msg = Some k')); lia.
Qed.

(** The counts of a key whose history was recorded on fresh counts. *)
Lemma RecordAll_zero msgs c :
  len msgs <= GoInt.int_max ->
  RecordAll msgs zero = Returns (tt, c) ->
  forall k, count k c = occurrences k msgs.
Proof.
  intros Hlen Hrun k.
  rewrite (RecordAll_counts msgs zero c Hrun).
  - destruct k; reflexivity.
  - intros []; cbn; lia.
  - intros []; cbn; lia.
Qed.

(** *** Proposal and Commit *)

Ltac kind_cases H :=
  repeat match type of H with
         | context [if ?b then _ else _] => destruct b eqn:?
         end; try discriminate H.

Lemma Validate_proposal (msg : DecodedSSVMessage) (c : MessageCounts) :
  kindOf msg = Some KProposal ->
  Validate msg c
  = if (Commit c >? 0) || (Decided c >? 0) || (PostConsensus c >? 0)
    then unexpected "proposal" c
    else Returns (None, c).
Proof.
  intros Hk. unfold kindOf in Hk. unfold Validate. run.
  destruct (Body msg) as [m|m|d]; [| |discriminate]; kind_cases Hk.
  branches; reflexivity.
Qed.

Lemma Validate_commit (msg : DecodedSSVMessage) (c : MessageCounts) :
  kindOf msg = Some KCommit ->
  Validate msg c
  = if (Commit c >? 0) || (Decided c >? 0) || (PostConsensus c >? 0)
    then unexpected "commit" c
    else Returns (None, c).
Proof.
  intros Hk. unfold kindOf in Hk. unfold Validate. run.
  destruct (Body msg) as [m|m|d]; [| |discriminate]; kind_cases Hk.
  destruct (Commit c >? 0), (Decided c >? 0), (PostConsensus c >? 0);
    cbn; try reflexivity.
  rewrite andb_false_r. reflexivity.
Qed.

Lemma Record_of_kind (msg : DecodedSSVMessage) (k : MessageKind) (c : MessageCounts) :
  kindOf msg = Some k -> Record msg c = Returns (tt, incr k c).
Proof.
  intros Hk. rewrite Record_kindOf, Hk.
  unfold kindOf in Hk. destruct (Body msg); [reflexivity..|discriminate].
Qed.

(** C5. For the counts [c] of a key, reached by recording a history on fresh
    counts: once a Proposal is recorded, [Validate] of a Commit of one signer
    succeeds unless a Commit, a Decided or a PostConsensus message is in the
    history; and once a Commit is recorded, [Validate] of a Proposal fails
    with [ErrUnexpectedMessageType], which describes the counts. *)
Theorem Proposal_Commit_order
    (history : list DecodedSSVMessage) (c : MessageCounts)
    (proposal commit : DecodedSSVMessage) :
  len history < GoInt.int_max ->
  RecordAll history zero = Returns (tt, c) ->
  kindOf proposal = Some KProposal ->
  kindOf commit = Some KCommit ->
  (exists c1 r,
      Record proposal c = Returns (tt, c1)
      /\ Validate commit c1 = Returns (r, c1)
      /\ (r = None <->
          forall msg, msg ∈ history ->
                      kindOf msg <> Some KCommit
                      /\ kindOf msg <> Some KDecided
                      /\ kindOf msg <> Some KPostConsensus))
  /\ (exists c2 s,
        Record commit c = Returns (tt, c2)
        /\ String c2 = Returns (s, c2)
        /\ Validate proposal c2
           = Returns (Some (ErrorValue
                              {| text := text ErrUnexpectedMessageType;
                                 got := Some ("proposal, having " ++ s) |}),
                      c2)).
Proof.
  intros Hlen Hrun Hp Hc.
  pose proof (RecordAll_zero history c ltac:(lia) Hrun) as Hcount.
  pose proof (Hcount KCommit) as HC. pose proof (Hcount KDecided) as HD.
  pose proof (Hcount KPostConsensus) as HP. cbn [count] in HC, HD, HP.
  pose proof (occurrences_bounds KCommit history) as BC.
  pose proof (occurrences_bounds KDecided history) as BD.
  pose proof (occurrences_bounds KPostConsensus history) as BP.
  split.
  - exists (incr KProposal c).
    destruct (Validate_frame commit (incr KProposal c)) as [r Hr].
    exists r.
    split; [apply Record_of_kind; exact Hp|].
    split; [exact Hr|].
    rewrite Validate_commit in Hr by exact Hc.
    assert (Hsame : Commit (incr KProposal c) = Commit c
                    /\ Decided (incr KProposal c) = Decided c
                    /\ PostConsensus (incr KProposal c) = PostConsensus c)
      by (destruct c; repeat split).
    destruct Hsame as (E1 & E2 & E3). rewrite E1, E2, E3 in Hr.
    assert (Hnone : (forall msg, msg ∈ history ->
                                 kindOf msg <> Some KCommit
                                 /\ kindOf msg <> Some KDecided
                                 /\ kindOf msg <> Some KPostConsensus)
                    <-> Commit c = 0 /\ Decided c = 0 /\ PostConsensus c = 0).
    { rewrite HC, HD, HP, !occurrences_zero. split.
      - intros H. repeat split; intros msg Hin; apply (H msg Hin).
      - intros (H1 & H2 & H3) msg Hin. auto. }
    rewrite Hnone.
    destruct (Commit c >? 0) eqn:G1, (Decided c >? 0) eqn:G2,
             (PostConsensus c >? 0) eqn:G3; cbn [orb] in Hr;
      cbv [mbind mret method_bind method_ret get unexpected String] in Hr;
      injection Hr as <-;
      rewrite ?Z.gtb_gt in *;
      repeat match goal with
             | H : (_ >? _) = false |- _ =>
                 rewrite Z.gtb_ltb, Z.ltb_ge in H
             end;
      (split; [try discriminate; lia|intros; try reflexivity; lia]).
  - exists (incr KCommit c). eexists.
    split; [apply Record_of_kind; exact Hc|].
    split; [reflexivity|].
    rewrite Validate_proposal by exact Hp.
    assert (Hone : (Commit (incr KCommit c) >? 0) = true).
    { apply Z.gtb_gt.
      replace (Commit (incr KCommit c)) with (GoInt.add (Commit c) 1)
        by (destruct c; reflexivity).
      rewrite GoInt_facts.add_1; lia. }
    rewrite Hone. reflexivity.
Qed.

(** A key that has seen a Prepare and a RoundChange. *)
Lemma Proposal_Commit_order_witness :
  exists c1 r,
    Record (consensus ProposalMsgType [3]) (mkMessageCounts 0 0 1 0 0 1 0)
    = Returns (tt, c1)
    /\ Validate (consensus CommitMsgType [3]) c1 = Returns (r, c1)
    /\ r = None.
Proof.
  destruct (Proposal_Commit_order
              [consensus PrepareMsgType [3]; consensus RoundChangeMsgType [3]]
              (mkMessageCounts 0 0 1 0 0 1 0)
              (consensus ProposalMsgType [3]) (consensus CommitMsgType [3]))
    as [(c1 & r & HR & HV & Hiff) _].
  - reflexivity.
  - reflexivity.
  - reflexivity.
  - reflexivity.
  - exists c1, r. split; [exact HR|]. split; [exact HV|].
    apply Hiff. intros msg Hin.
    apply elem_of_cons in Hin as [->|Hin];
      [|apply elem_of_cons in Hin as [->|Hin]; [|inversion Hin]];
      repeat split; discriminate.
Defined.

End validation_facts.

(** ** The logger fields *)

Module logger_fields_facts.

Import logger_fields.

(** [buildLoggerFields] of a nil message returns a descriptor, not nil,
    whose fields are all zero or empty, the round and the QBFT message type
    of the consensus fields it points to included; and on a message whose
    embedded pointers are there it returns a descriptor. *)
Lemma buildLoggerFields_nil :
  buildLoggerFields None
  = Some {| DutyExecutorID := []; Role := 0; SSVMessageType := 0; Slot := 0;
            Consensus := Some {| Round := 0; QBFTMessageType := 0 |};
            OperatorIDs := [] |}
  /\ forall decodedMessage, exists d, buildLoggerFields decodedMessage = Some d.
Proof.
  split; [reflexivity|].
  intros [msg|]; [|eexists; reflexivity].
  unfold buildLoggerFields.
  destruct (Body msg) as [[m|]|[m|]|]; eexists; reflexivity.
Qed.

End logger_fields_facts.

(** ** More on the counters: order, duplicates, errors *)

Module validation_order.

Import specqbft spectypes validation validation_facts.

(** Finds a string among the strings of a list written out. *)
Ltac one_of_the_words :=
  repeat first [apply list_elem_of_here | apply list_elem_of_further].

(** Shows that a kind is not in a list written out. *)
Ltac not_a_blocker :=
  let H := fresh in
  intros H;
  repeat (apply elem_of_cons in H as [H|H]; [discriminate H|]);
  apply elem_of_nil in H; exact H.

(** [Validate] by the kind of the message: it turns the message down when
    the count of one of the blockers of its kind is positive, and accepts it
    otherwise. *)
Lemma Validate_of_kind (msg : DecodedSSVMessage) (k : MessageKind) (c : MessageCounts) :
  kindOf msg = Some k ->
  exists what,
    Validate msg c
    = if existsb (fun k' => count k' c >? 0) (blockers k)
      then unexpected what c
      else Returns (None, c).
Proof.
  intros Hk. unfold kindOf in Hk. unfold Validate. run.
  destruct (Body msg) as [m|m|d]; [| |discriminate]; kind_cases Hk;
    injection Hk as <-; cbn [blockers existsb count]; eexists;
    repeat match goal with
           | |- context [?x >? 0] => destruct (x >? 0)
           end; cbn [orb andb]; try reflexivity.
  all: rewrite ?andb_false_r, ?andb_true_r; cbn [orb]; try reflexivity.
  Unshelve. all: exact "".
Qed.

Lemma occurrences_positive (k : MessageKind) (msgs : list DecodedSSVMessage) :
  occurrences k msgs > 0 <-> exists msg, msg ∈ msgs /\ kindOf msg = Some k.
Proof.
  pose proof (occurrences_bounds k msgs) as Hb.
  pose proof (occurrences_zero k msgs) as Hz.
  split.
  - intros Hpos. induction msgs as [|m msgs IH].
    + unfold occurrences, len in Hpos. rewrite filter_nil in Hpos.
      cbn in Hpos. lia.
    + destruct (decide (kindOf m = Some k)) as [Hm|Hm].
      * exists m. split; [left|exact Hm].
      * rewrite occurrences_cons, decide_False in Hpos by exact Hm.
        destruct IH as (msg & Hin & Hkind).
        -- apply occurrences_bounds.
        -- apply occurrences_zero.
        -- lia.
        -- exists msg. split; [right; exact Hin|exact Hkind].
  - intros (msg & Hin & Hkind).
    destruct (decide (occurrences k msgs = 0)) as [H0|H0]; [|lia].
    exfalso. exact (proj1 Hz H0 msg Hin Hkind).
Qed.

(** On the counts of a recorded history, a count is positive exactly when
    the history holds a message of its kind. *)
Lemma count_positive_history (history : list DecodedSSVMessage) (c : MessageCounts)
    (k : MessageKind) :
  len history <= GoInt.int_max ->
  RecordAll history zero = Returns (tt, c) ->
  (count k c >? 0) = true <-> exists msg, msg ∈ history /\ kindOf msg = Some k.
Proof.
  intros Hlen Hrun.
  rewrite (RecordAll_zero history c Hlen Hrun k), Z.gtb_gt.
  apply occurrences_positive.
Qed.

(** Whether some blocker of [k] has a positive count, on the counts of a
    recorded history. *)
Lemma blocked_history (history : list DecodedSSVMessage) (c : MessageCounts)
    (k : MessageKind) :
  len history <= GoInt.int_max ->
  RecordAll history zero = Returns (tt, c) ->
  existsb (fun k' => count k' c >? 0) (blockers k) = false
  <-> forall msg k', msg ∈ history -> kindOf msg = Some k' -> k' ∉ blockers k.
Proof.
  intros Hlen Hrun. split.
  - intros Hnone msg k' Hin Hkind Hblock.
    assert (Hsome : existsb (fun k' => count k' c >? 0) (blockers k) = true);
      [|congruence].
    apply existsb_exists. exists k'. split.
    + apply list_elem_of_In. exact Hblock.
    + apply (count_positive_history history c k' Hlen Hrun). eauto.
  - intros Hfree. apply not_true_is_false. intros Hsome.
    apply existsb_exists in Hsome as (k' & Hin & Hpos).
    apply (count_positive_history history c k' Hlen Hrun) in Hpos
      as (msg & Hmsg & Hkind).
    apply (Hfree msg k' Hmsg Hkind). apply list_elem_of_In. exact Hin.
Qed.

(** X1. On the counts of a key whose history was recorded on fresh counts,
    [Validate] accepts a message of kind [k] exactly when the history holds
    no message of a kind among the blockers of [k]; in both cases the counts
    are left as they were. *)
Theorem Validate_accepts_iff_no_blocker
    (history : list DecodedSSVMessage) (c : MessageCounts)
    (msg : DecodedSSVMessage) (k : MessageKind) :
  len history <= GoInt.int_max ->
  RecordAll history zero = Returns (tt, c) ->
  kindOf msg = Some k ->
  exists r,
    Validate msg c = Returns (r, c)
    /\ (r = None <->
        forall m k', m ∈ history -> kindOf m = Some k' -> k' ∉ blockers k).
Proof.
  intros Hlen Hrun Hk.
  destruct (Validate_of_kind msg k c Hk) as [what Hv].
  pose proof (blocked_history history c k Hlen Hrun) as Hb.
  destruct (existsb (fun k' => count k' c >? 0) (blockers k)).
  - eexists. split; [rewrite Hv; reflexivity|].
    split; [discriminate|]. intros Hfree. apply Hb in Hfree. discriminate.
  - exists None. split; [exact Hv|].
    split; [intros _; apply Hb; reflexivity|reflexivity].
Qed.

(** A Prepare, then a second Prepare: the second is turned down. *)
Lemma Validate_accepts_iff_no_blocker_witness :
  exists r,
    Validate (consensus PrepareMsgType [3]) (mkMessageCounts 0 1 1 0 0 0 0)
    = Returns (r, mkMessageCounts 0 1 1 0 0 0 0)
    /\ r <> None.
Proof.
  destruct (Validate_accepts_iff_no_blocker
              [consensus ProposalMsgType [3]; consensus PrepareMsgType [3]]
              (mkMessageCounts 0 1 1 0 0 0 0)
              (consensus PrepareMsgType [3]) KPrepare)
    as (r & Hv & Hiff).
  - discriminate.
  - reflexivity.
  - reflexivity.
  - exists r. split; [exact Hv|]. intros Hnone.
    apply (proj1 Hiff Hnone (consensus PrepareMsgType [3]) KPrepare).
    + right. left.
    + reflexivity.
    + left.
Defined.

(** X2. However many Proposals a key has recorded, and nothing else, the
    next Proposal is accepted: [Validate] does not look at the count of
    Proposals. *)
Theorem Validate_accepts_repeated_Proposal
    (history : list DecodedSSVMessage) (c : MessageCounts)
    (proposal : DecodedSSVMessage) :
  len history <= GoInt.int_max ->
  RecordAll history zero = Returns (tt, c) ->
  (forall msg, msg ∈ history -> kindOf msg = Some KProposal) ->
  kindOf proposal = Some KProposal ->
  Proposal c = len history
  /\ Validate proposal c = Returns (None, c).
Proof.
  intros Hlen Hrun Hall Hp. split.
  - change (Proposal c) with (count KProposal c).
    rewrite (RecordAll_zero history c Hlen Hrun). unfold occurrences.
    f_equal. clear Hrun Hlen. induction history as [|m history IH].
    + reflexivity.
    + rewrite filter_cons, decide_True by (apply Hall; left).
      f_equal. apply IH. intros msg Hin. apply Hall. right. exact Hin.
  - destruct (Validate_of_kind proposal KProposal c Hp) as [what Hv].
    rewrite Hv.
    rewrite (proj2 (blocked_history history c KProposal Hlen Hrun));
      [reflexivity|].
    intros msg k' Hin Hkind. rewrite (Hall msg Hin) in Hkind.
    injection Hkind as <-. cbn [blockers]. not_a_blocker.
Qed.

(** Three Proposals are recorded; a fourth is accepted. *)
Lemma Validate_accepts_repeated_Proposal_witness :
  Validate (consensus ProposalMsgType [3]) (mkMessageCounts 0 3 0 0 0 0 0)
  = Returns (None, mkMessageCounts 0 3 0 0 0 0 0).
Proof.
  apply (Validate_accepts_repeated_Proposal
           [consensus ProposalMsgType [3]; consensus ProposalMsgType [3];
            consensus ProposalMsgType [3]]
           (mkMessageCounts 0 3 0 0 0 0 0) (consensus ProposalMsgType [3])).
  - discriminate.
  - reflexivity.
  - intros msg Hin. repeat (apply elem_of_cons in Hin as [->|Hin];
                            [reflexivity|]).
    apply elem_of_nil in Hin. destruct Hin.
  - reflexivity.
Defined.

(** A kind other than Proposal is among its own blockers. *)
Lemma blockers_self (k : MessageKind) : k <> KProposal -> k ∈ blockers k.
Proof. destruct k; intros H; cbn [blockers]; [left|congruence|left..]. Qed.

(** X3. One validated step keeps every count but that of Proposals at 0 or
    1: if the counts are so, [Validate] accepts a message and [Record] then
    counts it, the counts are so again.  A kind other than Proposal is never
    counted twice through [Validate]. *)
Theorem Validate_then_Record_at_most_once
    (msg : DecodedSSVMessage) (c c' : MessageCounts) :
  (forall k, k <> KProposal -> 0 <= count k c <= 1) ->
  Validate msg c = Returns (None, c) ->
  Record msg c = Returns (tt, c') ->
  forall k, k <> KProposal -> 0 <= count k c' <= 1.
Proof.
  intros Hinv Hv Hr k Hk. rewrite Record_kindOf in Hr.
  destruct (kindOf msg) as [k0|] eqn:Hkind.
  - assert (Hc' : c' = incr k0 c)
      by (destruct (Body msg); [congruence..|discriminate]).
    subst c'. rewrite count_incr.
    destruct (decide (k = k0)) as [<-|Hne]; [|apply Hinv; exact Hk].
    destruct (Validate_of_kind msg k c Hkind) as [what Hw].
    rewrite Hw in Hv.
    destruct (existsb (fun k' => count k' c >? 0) (blockers k)) eqn:Hb;
      [cbv [unexpected mbind mret method_bind method_ret get String] in Hv;
       discriminate Hv|].
    assert (Hzero : (count k c >? 0) = false).
    { apply not_true_is_false. intros Hpos.
      assert (existsb (fun k' => count k' c >? 0) (blockers k) = true);
        [|congruence].
      apply existsb_exists. exists k. split; [|exact Hpos].
      apply list_elem_of_In, blockers_self, Hk. }
    rewrite Z.gtb_ltb, Z.ltb_ge in Hzero.
    specialize (Hinv k Hk).
    replace (count k c) with 0 by lia.
    change (GoInt.add 0 1) with 1. lia.
  - assert (Hc' : c' = c)
      by (destruct (Body msg); [congruence..|discriminate]).
    subst c'. apply Hinv. exact Hk.
Qed.

(** A Commit validated and recorded after a Proposal. *)
Lemma Validate_then_Record_at_most_once_witness :
  0 <= count KCommit (mkMessageCounts 0 1 0 1 0 0 0) <= 1.
Proof.
  apply (Validate_then_Record_at_most_once
           (consensus CommitMsgType [3])
           (mkMessageCounts 0 1 0 0 0 0 0) (mkMessageCounts 0 1 0 1 0 0 0)).
  - intros []; cbn; lia.
  - reflexivity.
  - reflexivity.
  - discriminate.
Defined.

(** X4. The errors of [Validate]: on a consensus or a partial-signature
    message every error is a copy of [ErrUnexpectedMessageType] whose [got] is
    one of six words followed by the description [String] gives of the
    counts.  The word is never "decided": the second test of the Commit case
    cannot succeed once the first has failed. *)
Theorem Validate_error_shape
    (msg : DecodedSSVMessage) (c : MessageCounts) (err : error) :
  Validate msg c = Returns (Some err, c) ->
  match Body msg with
  | OtherBody d => err = Errorf ("unexpected message type: " ++ d)
  | _ =>
      exists what s,
        what ∈ ["proposal"; "prepare"; "commit"; "round change";
                "pre-consensus"; "post-consensus"]
        /\ what <> "decided"
        /\ String c = Returns (s, c)
        /\ err = ErrorValue {| text := "unexpected message type";
                               got := Some (what ++ ", having " ++ s) |}
  end.
Proof.
  unfold Validate. run. intros Hv.
  destruct (Body msg) as [m|m|d]; [| |injection Hv as <-; reflexivity];
    repeat match type of Hv with
           | context [?x >? ?y] => destruct (x >? y)
           | context [?x =? ?y] => destruct (x =? y)
           end;
    cbn [andb orb] in Hv;
    first [discriminate Hv | injection Hv as <-];
    eexists _, _;
    ((split; [|split; [|split; reflexivity]]);
     [one_of_the_words|discriminate]).
Qed.

(** A second Decided is turned down under the word "commit". *)
Lemma Validate_error_shape_witness :
  exists what s,
    what <> "decided"
    /\ String (mkMessageCounts 0 0 0 0 1 0 0) = Returns (s, mkMessageCounts 0 0 0 0 1 0 0)
    /\ what ++ ", having " ++ s
       = "commit, having pre-consensus: 0, proposal: 0, prepare: 0, commit: 0, decided: 1, round change: 0, post-consensus: 0".
Proof.
  destruct (Validate_error_shape
              (consensus CommitMsgType [1; 2; 4]) (mkMessageCounts 0 0 0 0 1 0 0)
              (ErrorValue
                 {| text := "unexpected message type";
                    got := Some "commit, having pre-consensus: 0, proposal: 0, prepare: 0, commit: 0, decided: 1, round change: 0, post-consensus: 0" |})
              eq_refl)
    as (what & s & _ & Hnot & Hs & He).
  exists what, s. split; [exact Hnot|]. split; [exact Hs|].
  injection He as He. symmetry. exact He.
Defined.

End validation_order.

(** ** More on the counters: what [Record] does to them *)

Module validation_records.

Import specqbft spectypes validation validation_facts.

(** X5. [Record] never lowers a count: as long as no count is at the largest
    [int], each count stays or grows by one, and at most one of them
    changes. *)
Theorem Record_monotone (msg : DecodedSSVMessage) (c c' : MessageCounts) :
  (forall k, GoInt.int_min <= count k c < GoInt.int_max) ->
  Record msg c = Returns (tt, c') ->
  (forall k, count k c <= count k c' <= count k c + 1)
  /\ (forall k1 k2, count k1 c' <> count k1 c -> count k2 c' <> count k2 c ->
                    k1 = k2).
Proof.
  intros Hrange Hr. rewrite Record_kindOf in Hr.
  assert (Hc' : c' = match kindOf msg with Some k0 => incr k0 c | None => c end)
    by (destruct (Body msg); [congruence..|discriminate]).
  clear Hr. subst c'.
  assert (Hadd : forall k, GoInt.add (count k c) 1 = count k c + 1).
  { intros k. apply GoInt_facts.add_no_overflow. specialize (Hrange k).
    unfold GoInt.in_range. lia. }
  destruct (kindOf msg) as [k0|]; [|split; [intros; lia|congruence]].
  split.
  - intros k. rewrite count_incr.
    destruct (decide (k = k0)); [rewrite Hadd|]; lia.
  - intros k1 k2. rewrite !count_incr.
    destruct (decide (k1 = k0)), (decide (k2 = k0)); congruence.
Qed.

Lemma Record_monotone_witness :
  count KPrepare (mkMessageCounts 0 1 0 0 0 0 0)
  <= count KPrepare (mkMessageCounts 0 1 1 0 0 0 0)
  <= count KPrepare (mkMessageCounts 0 1 0 0 0 0 0) + 1.
Proof.
  apply (Record_monotone (consensus PrepareMsgType [3])
           (mkMessageCounts 0 1 0 0 0 0 0) (mkMessageCounts 0 1 1 0 0 0 0)).
  - intros []; split; discriminate || reflexivity.
  - reflexivity.
Defined.

Lemma incr_comm (k1 k2 : MessageKind) (c : MessageCounts) :
  incr k1 (incr k2 c) = incr k2 (incr k1 c).
Proof. destruct c, k1, k2; reflexivity. Qed.

(** Two calls of [Record] in either order: the same counts, or the same
    panic. *)
Lemma RecordAll_swap (m1 m2 : DecodedSSVMessage) (rest : list DecodedSSVMessage)
    (c : MessageCounts) :
  RecordAll (m1 :: m2 :: rest) c = RecordAll (m2 :: m1 :: rest) c.
Proof.
  cbn [RecordAll]. unfold mbind, method_bind.
  rewrite (Record_kindOf m1 c), (Record_kindOf m2 c).
  destruct (Body m1) eqn:B1, (Body m2) eqn:B2;
    rewrite ?Record_kindOf, ?B1, ?B2; try reflexivity.
  all: destruct (kindOf m1) as [k1|], (kindOf m2) as [k2|];
    rewrite ?(incr_comm k1 k2); reflexivity.
Qed.

(** X6. The counts depend on which messages were recorded, not on their
    order: recording either of two histories that are permutations of each
    other ends in the same counts, or in the same panic. *)
Theorem RecordAll_permutation (h1 h2 : list DecodedSSVMessage) :
  Permutation h1 h2 ->
  forall c, RecordAll h1 c = RecordAll h2 c.
Proof.
  induction 1 as [|m l l' _ IH|m1 m2 l|l l' l'' _ IH1 _ IH2]; intros c.
  - reflexivity.
  - cbn [RecordAll]. unfold mbind, method_bind.
    destruct (Record m c) as [[u c1]|reason]; [apply IH|reflexivity].
  - apply RecordAll_swap.
  - rewrite IH1. apply IH2.
Qed.

Lemma RecordAll_permutation_witness :
  RecordAll [consensus ProposalMsgType [3]; partial RandaoPartialSig;
             consensus CommitMsgType [3]] zero
  = RecordAll [consensus CommitMsgType [3]; consensus ProposalMsgType [3];
               partial RandaoPartialSig] zero.
Proof.
  apply RecordAll_permutation.
  apply Permutation_sym.
  apply (Permutation_cons_append
           [consensus ProposalMsgType [3]; partial RandaoPartialSig]
           (consensus CommitMsgType [3])).
Defined.

(** [ReachedLimits] as a disjunction over the kinds. *)
Lemma ReachedLimits_spec (c limits : MessageCounts) :
  exists b : bool,
    ReachedLimits limits c = Returns (b, c)
    /\ (b = true <-> exists k, count k c >= count k limits).
Proof.
  eexists. split; [reflexivity|].
  rewrite count_kinds. cbn [count].
  rewrite !orb_true_iff, !Z.geb_le. lia.
Qed.

(** X7. With the limits of a committee, [ReachedLimits] on the counts of a
    recorded history is true exactly when the history holds a message of a
    kind other than Decided, or more than the committee size of Decided
    messages: one message of any other kind is enough. *)
Theorem ReachedLimits_of_history
    (C : Z) (history : list DecodedSSVMessage) (c : MessageCounts) :
  1 <= C < GoInt.int_max ->
  len history <= GoInt.int_max ->
  RecordAll history zero = Returns (tt, c) ->
  exists b : bool,
    ReachedLimits (maxMessageCounts C) c = Returns (b, c)
    /\ (b = true <->
        (exists msg k, msg ∈ history /\ kindOf msg = Some k /\ k <> KDecided)
        \/ occurrences KDecided history >= C + 1).
Proof.
  intros HC Hlen Hrun.
  destruct (ReachedLimits_spec c (maxMessageCounts C)) as (b & Hb & Hiff).
  exists b. split; [exact Hb|]. rewrite Hiff. clear b Hb Hiff.
  pose proof (RecordAll_zero history c Hlen Hrun) as Hcount.
  assert (Hdec : count KDecided (maxMessageCounts C) = C + 1)
    by (apply GoInt_facts.add_1; lia).
  assert (Hone : forall k, k <> KDecided -> count k (maxMessageCounts C) = 1)
    by (intros []; congruence || reflexivity).
  split.
  - intros [k Hk]. rewrite Hcount in Hk.
    destruct (decide (k = KDecided)) as [->|Hne].
    + right. lia.
    + left. rewrite Hone in Hk by exact Hne.
      destruct (proj1 (validation_order.occurrences_positive k history))
        as (msg & Hin & Hkind); [lia|].
      exists msg, k. auto.
  - intros [(msg & k & Hin & Hkind & Hne)|Hmany].
    + exists k. rewrite Hcount, Hone by exact Hne.
      pose proof (proj2 (validation_order.occurrences_positive k history)
                    (ex_intro _ msg (conj Hin Hkind))). lia.
    + exists KDecided. rewrite Hcount, Hdec. exact Hmany.
Qed.

(** One Proposal recorded: the limits of a committee of four are reached. *)
Lemma ReachedLimits_of_history_witness :
  exists b : bool,
    ReachedLimits (maxMessageCounts 4) (mkMessageCounts 0 1 0 0 0 0 0)
    = Returns (b, mkMessageCounts 0 1 0 0 0 0 0)
    /\ b = true.
Proof.
  destruct (ReachedLimits_of_history 4 [consensus ProposalMsgType [3]]
              (mkMessageCounts 0 1 0 0 0 0 0))
    as (b & Hb & Hiff).
  - split; [discriminate|reflexivity].
  - discriminate.
  - reflexivity.
  - exists b. split; [exact Hb|]. apply Hiff. left.
    exists (consensus ProposalMsgType [3]), KProposal.
    split; [left|]. split; [reflexivity|discriminate].
Defined.

(** X14. The panic of [Record] is out of reach behind [Validate]: a message
    [Validate] accepts is one [Record] returns on, and it changes at most
    the count of the kind of the message. *)
Theorem Record_returns_after_Validate
    (msg : DecodedSSVMessage) (c : MessageCounts) :
  Validate msg c = Returns (None, c) ->
  exists c',
    Record msg c = Returns (tt, c')
    /\ forall k, kindOf msg <> Some k -> count k c' = count k c.
Proof.
  intros Hv. rewrite Record_kindOf.
  destruct (Body msg) as [m|m|d] eqn:Hbody.
  - eexists. split; [reflexivity|]. intros k Hk.
    destruct (kindOf msg) as [k0|]; [|reflexivity].
    rewrite count_incr, decide_False by congruence. reflexivity.
  - eexists. split; [reflexivity|]. intros k Hk.
    destruct (kindOf msg) as [k0|]; [|reflexivity].
    rewrite count_incr, decide_False by congruence. reflexivity.
  - unfold Validate in Hv. run. rewrite Hbody in Hv. discriminate Hv.
Qed.

Lemma Record_returns_after_Validate_witness :
  exists c', Record (partial PostConsensusPartialSig) zero = Returns (tt, c').
Proof.
  destruct (Record_returns_after_Validate (partial PostConsensusPartialSig) zero)
    as (c' & Hr & _).
  - reflexivity.
  - exists c'. exact Hr.
Defined.

End validation_records.

(** ** The pubsub tracer *)

Module tracer_facts.

Import tracer.

(** The record [log] hands to the logger for an event. *)
Lemma Trace_step (withLogging : bool) (evt : TraceEvent) (s : sinks) :
  metricsPubsubTrace (Trace (newTracer withLogging) evt s)
  = <[GetTypeString evt := S (default 0%nat (metricsPubsubTrace s !! GetTypeString evt))]>
      (metricsPubsubTrace s)
  /\ logged (Trace (newTracer withLogging) evt s)
     = (logged s
        ++ if withLogging
           then [("pubsub event",
                  [("who", "pubsubTrace"); ("type", GetTypeString evt)])]
           else [])%list.
Proof.
  destruct withLogging; cbn; [split; reflexivity|].
  rewrite app_nil_r. split; reflexivity.
Qed.

(** X8. A tracer reports every event and logs none unless it was made with
    logging: after a run of events the number of [Inc] calls on a label has
    grown by the number of events of that type, and the logger has received
    one record per event, in order, when logging is on and nothing when it is
    off. *)
Theorem TraceAll_reports_and_logs
    (withLogging : bool) (evts : list TraceEvent) (s : sinks) (label : string) :
  let s' := TraceAll (newTracer withLogging) evts s in
  default 0%nat (metricsPubsubTrace s' !! label)
  = (default 0%nat (metricsPubsubTrace s !! label)
     + length (filter (fun evt => GetTypeString evt = label) evts))%nat
  /\ logged s'
     = (logged s
        ++ if withLogging
           then map (fun evt => ("pubsub event",
                                 [("who", "pubsubTrace");
                                  ("type", GetTypeString evt)])) evts
           else [])%list.
Proof.
  cbv zeta. unfold TraceAll. revert s.
  induction evts as [|evt evts IH]; intros s.
  - cbn [fold_left]. rewrite filter_nil. cbn [length].
    split; [lia|]. destruct withLogging; rewrite app_nil_r; reflexivity.
  - cbn [fold_left]. destruct (IH (Trace (newTracer withLogging) evt s))
      as [IHm IHl].
    destruct (Trace_step withLogging evt s) as [Hm Hl].
    split.
    + rewrite IHm, Hm, filter_cons.
      destruct (decide (GetTypeString evt = label)) as [->|Hne].
      * rewrite lookup_insert_eq. cbn [from_option id length]. lia.
      * rewrite lookup_insert_ne by exact Hne. reflexivity.
    + rewrite IHl, Hl, <- app_assoc. f_equal.
      destruct withLogging; reflexivity.
Qed.

End tracer_facts.

(** ** The descriptor as log fields *)

Module logger_fields_more.

Import logger_fields.

(** X9. Every descriptor [buildLoggerFields] returns points to consensus
    fields, so [AsZapFields] gives it seven fields: the round and the QBFT
    message type are logged for a partial-signature message, for a body of
    another type and for a nil message too, as zeros. *)
Theorem AsZapFields_of_built_descriptor
    (MsgTypeToString : Z -> string)
    (QBFTMsgTypeToString : specqbft.MessageType -> string)
    (decodedMessage : option DecodedSSVMessage) :
  exists d consensus,
    buildLoggerFields decodedMessage = Some d
    /\ Consensus d = Some consensus
    /\ AsZapFields MsgTypeToString QBFTMsgTypeToString d
       = [ FieldDutyExecutorID (DutyExecutorID d);
           FieldRole (Role d);
           ZapString "ssv_message_type" (MsgTypeToString (SSVMessageType d));
           FieldSlot (Slot d);
           FieldOperatorIDs (OperatorIDs d);
           FieldRound (Round consensus);
           ZapString "qbft_message_type"
             (QBFTMsgTypeToString (QBFTMessageType consensus)) ]
    /\ match decodedMessage with
       | Some {| Body := MessageBody (Some m) |} =>
           Slot d = specqbft.Height m
           /\ consensus = {| Round := specqbft.Round m;
                             QBFTMessageType := specqbft.MsgType m |}
       | Some {| Body := PartialSignatureMessagesBody (Some m) |} =>
           Slot d = spectypes.Slot m
           /\ consensus = {| Round := 0; QBFTMessageType := 0 |}
       | _ =>
           Slot d = 0 /\ consensus = {| Round := 0; QBFTMessageType := 0 |}
       end.
Proof.
  destruct decodedMessage as [[ids type id [[m|]|[m|]|]]|];
    eexists _, _; repeat split.
Qed.

End logger_fields_more.

(** ** The beacon client *)

Module goclient_facts.

Import goclient.

(** X10. [Healthy] returns nil exactly when it leaves the status gauge at
    [statusOK]; the gauge is left at [statusUnknown] exactly when the call
    failed or brought no state, and at [statusSyncing] for a node that is
    syncing or optimistic.  The value the gauge had before does not matter. *)
Theorem Healthy_gauge
    (err : option string) (nodeSyncingResp : option (option SyncState))
    (gauge : Z) :
  exists (result : option string) (gauge' : Z),
    Healthy err nodeSyncingResp gauge = Returns (result, gauge')
    /\ (result = None <-> gauge' = statusOK)
    /\ (gauge' = statusUnknown <->
        err <> None \/ nodeSyncingResp = None \/ nodeSyncingResp = Some None)
    /\ (result = None <->
        err = None
        /\ nodeSyncingResp
           = Some (Some {| IsSyncing := false; IsOptimistic := false |})).
Proof.
  destruct err as [e|];
    [|destruct nodeSyncingResp as [[[[] []]|]|]];
    eexists _, _; (split; [reflexivity|]);
    repeat split; intros; try discriminate; try congruence; auto;
    intuition (try discriminate; try congruence).
Qed.

End goclient_facts.

(** ** More on the peer score inspector *)

Module topics_more.

Import topics.

(** X11. The flags of a peer's record: [low_score] is there exactly when the
    score is strictly below -1000, [connected] exactly when the peer is
    connected, and the gauge of the peer is set to its score. *)
Theorem inspectPeer_flags
    (peerConnected : string -> bool) (params : gmap string TopicScoreParams)
    (pid : string) (peerScores : PeerScoreSnapshot) :
  (Bool "low_score" true ∈ (inspectPeer peerConnected params pid peerScores).1
   <-> PrimFloat.ltb (Score peerScores) (-1000)%float = true)
  /\ (Bool "connected" true ∈ (inspectPeer peerConnected params pid peerScores).1
      <-> peerConnected pid = true)
  /\ (inspectPeer peerConnected params pid peerScores).2 = Score peerScores.
Proof.
  unfold inspectPeer.
  destruct (peerConnected pid), (PrimFloat.ltb (Score peerScores) (-1000));
    cbn [fst snd];
    repeat split; try discriminate; try reflexivity;
    rewrite ?elem_of_app, ?elem_of_cons, ?elem_of_nil;
    intros; try tauto;
    repeat match goal with
           | H : _ \/ _ |- _ => destruct H
           | H : _ ∈ _ :: _ |- _ => apply elem_of_cons in H
           | H : _ ∈ [] |- _ => apply elem_of_nil in H; destruct H
           end; try discriminate; try contradiction.
Qed.

(** At a score of exactly -1000 a connected peer is not flagged. *)
Lemma inspectPeer_flags_witness :
  let ps := {| Score := (-1000)%float; Topics := [];
               AppSpecificScore := 0%float; IPColocationFactor := 0%float;
               BehaviourPenalty := 0%float |} in
  (Bool "low_score" true ∉ (inspectPeer (fun _ => true) ∅ "peer" ps).1)
  /\ (Bool "connected" true ∈ (inspectPeer (fun _ => true) ∅ "peer" ps).1).
Proof.
  intros ps.
  destruct (inspectPeer_flags (fun _ => true) ∅ "peer" ps) as (Hlow & Hconn & _).
  split.
  - intros Hin. apply Hlow in Hin. discriminate Hin.
  - apply Hconn. reflexivity.
Defined.

Section Loop.

Variable params : gmap string TopicScoreParams.

(** The filtered map after the rest of the loop, from any state of it. *)
Lemma filtered_from (entries : list (string * TopicScoreSnapshot)) :
  forall (acc : tally) (topic : string) (snapshot : TopicScoreSnapshot),
    NoDup entries.*1 ->
    filtered (fold_left (topicStep params) entries acc) !! topic = Some snapshot
    <-> ((topic, snapshot) ∈ entries
         /\ PrimFloat.eqb (InvalidMessageDeliveries snapshot) 0 = false)
        \/ ((forall s, (topic, s) ∈ entries ->
                       PrimFloat.eqb (InvalidMessageDeliveries s) 0 = true)
            /\ filtered acc !! topic = Some snapshot).
Proof.
  induction entries as [|[t0 s0] entries IH]; intros acc topic snapshot Hnd.
  - cbn [fold_left]. split.
    + intros H. right. split; [|exact H].
      intros s Hin. apply elem_of_nil in Hin. destruct Hin.
    + intros [[Hin _]|[_ H]]; [apply elem_of_nil in Hin; destruct Hin|exact H].
  - cbn [fmap list_fmap fst] in Hnd. apply NoDup_cons in Hnd as [Hfresh Hnd].
    cbn [fold_left]. rewrite (IH _ topic snapshot Hnd). clear IH.
    assert (Hkey : forall s, (t0, s) ∈ entries -> False).
    { intros s Hin. apply Hfresh. apply list_elem_of_fmap.
      exists (t0, s). split; [reflexivity|exact Hin]. }
    unfold topicStep at 1. cbn [filtered].
    destruct (PrimFloat.eqb (InvalidMessageDeliveries s0) 0) eqn:Hz0;
      cbn [negb].
    + (* the entry is left out of the map *)
      split.
      * intros [[Hin Hnz]|[Hall Hacc]].
        -- left. split; [right; exact Hin|exact Hnz].
        -- right. split; [|exact Hacc].
           intros s Hin. apply elem_of_cons in Hin as [Heq|Hin].
           ++ injection Heq as -> ->. exact Hz0.
           ++ apply Hall. exact Hin.
      * intros [[Hin Hnz]|[Hall Hacc]].
        -- apply elem_of_cons in Hin as [Heq|Hin].
           ++ injection Heq as -> ->. congruence.
           ++ left. split; assumption.
        -- right. split; [|exact Hacc].
           intros s Hin. apply Hall. right. exact Hin.
    + (* the entry is put in the map *)
      split.
      * intros [[Hin Hnz]|[Hall Hacc]].
        -- left. split; [right; exact Hin|exact Hnz].
        -- destruct (decide (topic = t0)) as [->|Hne].
           ++ rewrite lookup_insert_eq in Hacc. injection Hacc as ->.
              left. split; [left|exact Hz0].
           ++ rewrite lookup_insert_ne in Hacc by congruence.
              right. split; [|exact Hacc].
              intros s Hin. apply elem_of_cons in Hin as [Heq|Hin].
              ** injection Heq as -> ->. congruence.
              ** apply Hall. exact Hin.
      * intros [[Hin Hnz]|[Hall Hacc]].
        -- apply elem_of_cons in Hin as [Heq|Hin].
           ++ injection Heq as -> ->. right. split.
              ** intros s Hin. destruct (Hkey s Hin).
              ** apply lookup_insert_eq.
           ++ left. split; assumption.
        -- destruct (decide (topic = t0)) as [->|Hne].
           ++ specialize (Hall s0 ltac:(left)). congruence.
           ++ right. split.
              ** intros s Hin. apply Hall. right. exact Hin.
              ** rewrite lookup_insert_ne by congruence. exact Hacc.
Qed.

(** The tally of low mesh deliveries after the rest of the loop. *)
Lemma lowMesh_from (entries : list (string * TopicScoreSnapshot)) :
  forall acc : tally,
    0 <= totalLowMeshDeliveries acc ->
    totalLowMeshDeliveries acc + Z.of_nat (length entries) <= GoInt.int_max ->
    totalLowMeshDeliveries (fold_left (topicStep params) entries acc)
    = totalLowMeshDeliveries acc
      + Z.of_nat (length (filter (fun e => lowMesh params e = true) entries)).
Proof.
  induction entries as [|[t0 s0] entries IH]; intros acc Hpos Hmax.
  - cbn [fold_left]. rewrite filter_nil. cbn [length]. lia.
  - cbn [fold_left]. cbn [length] in Hmax.
    assert (Hstep : totalLowMeshDeliveries (topicStep params acc (t0, s0))
                    = totalLowMeshDeliveries acc
                      + if lowMesh params (t0, s0) then 1 else 0).
    { unfold topicStep, lowMesh. cbn [totalLowMeshDeliveries fst snd].
      destruct (params !! t0) as [p|]; [|lia].
      destruct (PrimFloat.ltb _ _); [|lia].
      apply GoInt_facts.add_1. lia. }
    rewrite IH.
    + rewrite Hstep, filter_cons.
      destruct (lowMesh params (t0, s0)) eqn:Hlow.
      * rewrite decide_True by reflexivity. cbn [length]. lia.
      * rewrite decide_False by discriminate. lia.
    + rewrite Hstep. destruct (lowMesh params (t0, s0)); lia.
    + rewrite Hstep. destruct (lowMesh params (t0, s0)); lia.
Qed.

End Loop.

(** X12. The map logged under [invalid_messages] holds exactly the topics
    whose [InvalidMessageDeliveries] differs from 0, negative ones and NaN
    included, each with its snapshot (the topics of a Go map are distinct). *)
Theorem filtered_nonzero_topics
    (params : gmap string TopicScoreParams)
    (entries : list (string * TopicScoreSnapshot))
    (topic : string) (snapshot : TopicScoreSnapshot) :
  NoDup entries.*1 ->
  filtered (topicLoop params entries) !! topic = Some snapshot
  <-> (topic, snapshot) ∈ entries
      /\ PrimFloat.eqb (InvalidMessageDeliveries snapshot) 0 = false.
Proof.
  intros Hnd. unfold topicLoop.
  rewrite (filtered_from params entries tally0 topic snapshot Hnd).
  split.
  - intros [H|[_ H]]; [exact H|]. cbn in H. rewrite lookup_empty in H.
    discriminate H.
  - intros H. left. exact H.
Qed.

(** A topic with -1 invalid deliveries is in the map, one with 0 is not. *)
Lemma filtered_nonzero_topics_witness :
  let neg := {| MeshMessageDeliveries := 0%float;
                InvalidMessageDeliveries := (-1)%float |} in
  let nul := {| MeshMessageDeliveries := 0%float;
                InvalidMessageDeliveries := 0%float |} in
  filtered (topicLoop ∅ [("a", neg); ("b", nul)]) !! "a" = Some neg.
Proof.
  intros neg nul.
  apply (filtered_nonzero_topics ∅ [("a", neg); ("b", nul)] "a" neg).
  - cbn. repeat constructor.
    + intros Hin. apply elem_of_cons in Hin as [Hin|Hin]; [discriminate Hin|].
      apply elem_of_nil in Hin. exact Hin.
    + intros Hin. apply elem_of_nil in Hin. exact Hin.
  - split; [left|reflexivity].
Defined.

(** X13. The tally logged under [total_low_mesh_deliveries] is the number of
    topics whose parameters are known and whose mesh deliveries are strictly
    below the threshold of these parameters; a topic without parameters is
    not counted. *)
Theorem totalLowMeshDeliveries_counts
    (params : gmap string TopicScoreParams)
    (entries : list (string * TopicScoreSnapshot)) :
  Z.of_nat (length entries) <= GoInt.int_max ->
  totalLowMeshDeliveries (topicLoop params entries)
  = Z.of_nat (length (filter (fun e => lowMesh params e = true) entries)).
Proof.
  intros Hlen. unfold topicLoop.
  rewrite lowMesh_from; cbn [tally0 totalLowMeshDeliveries]; lia.
Qed.

Lemma totalLowMeshDeliveries_counts_witness :
  let s := {| MeshMessageDeliveries := 1%float;
              InvalidMessageDeliveries := 0%float |} in
  let p := {| MeshMessageDeliveriesThreshold := 2%float |} in
  totalLowMeshDeliveries (topicLoop {["a" := p]} [("a", s); ("b", s)]) = 1.
Proof.
  intros s p.
  rewrite (totalLowMeshDeliveries_counts {["a" := p]} [("a", s); ("b", s)]).
  - reflexivity.
  - discriminate.
Defined.

End topics_more.


(** ** Nil pointers: when the calls return and when they panic *)

Module nil_pointers.

Import specqbft spectypes validation validation_facts.

(** On a receiver that is there [Validate] returns, with the receiver as it
    was. *)
Lemma onReceiver_Validate (c : MessageCounts) (msg : DecodedSSVMessage) :
  exists r, onReceiver (Some c) (Validate msg) = Returns (r, Some c).
Proof.
  destruct (Validate_frame msg c) as [r Hr]. exists r.
  unfold onReceiver. rewrite Hr. reflexivity.
Qed.

(** On a receiver that is there [Record] of a message that has a kind
    returns. *)
Lemma onReceiver_Record (c : MessageCounts) (msg : DecodedSSVMessage) (k : MessageKind) :
  kindOf msg = Some k ->
  onReceiver (Some c) (Record msg) = Returns (tt, Some (incr k c)).
Proof.
  intros Hk. unfold onReceiver. rewrite (Record_of_kind msg k c Hk).
  reflexivity.
Qed.

(** [buildLoggerFieldsCall] by the two embedded pointers of a message. *)
Lemma buildLoggerFieldsCall_cases (msg : logger_fields.MessageValue) :
  match logger_fields.SSVMessage msg, logger_fields.SignedSSVMessage msg with
  | Some _, Some _ =>
      exists d, logger_fields.buildLoggerFieldsCall (Some msg) = Returns (Some d)
  | _, _ =>
      logger_fields.buildLoggerFieldsCall (Some msg)
      = Panics logger_fields.nilDereference
  end.
Proof.
  unfold logger_fields.buildLoggerFieldsCall.
  destruct (logger_fields.SSVMessage msg) as [ssv|],
           (logger_fields.SignedSSVMessage msg) as [ids|]; try reflexivity.
  destruct (logger_fields_facts.buildLoggerFields_nil) as [_ Hsome].
  destruct (Hsome (Some {| logger_fields.OperatorIDs_ := ids;
                           logger_fields.GetType := logger_fields.MsgType ssv;
                           logger_fields.GetID := logger_fields.MsgID ssv;
                           logger_fields.Body := logger_fields.BodyOf msg |}))
    as [d Hd].
  exists d. rewrite Hd. reflexivity.
Qed.

(** C3, refuted as stated: four calls that do not return.  [Record] on a
    body of an unrecognized type is the explicit panic of the source; the
    other three read through a nil pointer: [Validate] through a nil message,
    [ReachedLimits] through a nil receiver, [buildLoggerFields] through a nil
    [SignedSSVMessage]. *)
Lemma calls_that_panic :
  RecordCall (Some zero) (Some {| BodyOf := OtherValue "%!d(<nil>)" |})
  = Panics "unexpected message type"
  /\ ValidateCall (Some zero) None = Panics nilDereference
  /\ ReachedLimitsCall None (maxMessageCounts 4) = Panics nilDereference
  /\ logger_fields.buildLoggerFieldsCall
       (Some {| logger_fields.SignedSSVMessage := None;
                logger_fields.SSVMessage :=
                  Some {| logger_fields.MsgType := 0;
                          logger_fields.MsgID :=
                            {| logger_fields.GetDutyExecutorID := [];
                               logger_fields.GetRoleType := 0 |} |};
                logger_fields.BodyOf := logger_fields.OtherBody |})
     = Panics logger_fields.nilDereference
  /\ ~ (forall c msg, exists r, RecordCall c msg = Returns r).
Proof.
  repeat split.
  intros H.
  destruct (H (Some zero) (Some {| BodyOf := OtherValue "%!d(<nil>)" |}))
    as [r Hr].
  discriminate Hr.
Qed.

(** C3, amended.  When each call returns and when it panics, every pointer
    being nil or not:
    - [Validate] returns exactly when the message is not nil, its body is not
      a nil pointer of a message type and, if the receiver is nil, the
      message is of no type the switches have a case for; a body of an
      unrecognized type returns an error;
    - [Record] returns exactly when the message is not nil, its body is a
      pointer, not nil, of a message type and, if the receiver is nil, the
      message has no kind to count; on a body of an unrecognized type it
      panics with "unexpected message type";
    - [ReachedLimits] returns exactly when the receiver is not nil;
    - [buildLoggerFields] returns a descriptor exactly on a nil message
      and on a message whose two embedded pointers are not nil;
    - every other panic of the four is a nil dereference. *)
Theorem calls_return_or_panic :
  (forall c msg,
      (exists r, ValidateCall c msg = Returns r) <->
      exists m, msg = Some m /\
        match BodyOf m with
        | SignedMessagePointer p =>
            exists sm, p = Some sm
                       /\ (c = None -> knownQBFT (MsgType (specqbft.Message_ sm)) = false)
        | SignedPartialSignatureMessagePointer p =>
            exists pm, p = Some pm
                       /\ (c = None -> knownPartial (Type_ (spectypes.Message_ pm)) = false)
        | OtherValue _ => True
        end)
  /\ (forall c msg,
        (exists r, RecordCall c msg = Returns r) <->
        exists m, msg = Some m /\
          match BodyOf m with
          | SignedMessagePointer p =>
              exists sm, p = Some sm
                         /\ (c = None -> kindOf {| Body := SignedMessageBody sm |} = None)
          | SignedPartialSignatureMessagePointer p =>
              exists pm, p = Some pm
                         /\ (c = None ->
                             kindOf {| Body := SignedPartialSignatureMessageBody pm |} = None)
          | OtherValue _ => False
          end)
  /\ (forall c limits,
        (exists r, ReachedLimitsCall c limits = Returns r) <-> c <> None)
  /\ (forall decodedMessage,
        (exists d, logger_fields.buildLoggerFieldsCall decodedMessage = Returns (Some d))
        <-> forall m, decodedMessage = Some m ->
                      logger_fields.SSVMessage m <> None
                      /\ logger_fields.SignedSSVMessage m <> None)
  /\ (forall c msg reason,
        ValidateCall c msg = Panics reason -> reason = nilDereference)
  /\ (forall c msg reason,
        RecordCall c msg = Panics reason ->
        reason = nilDereference
        \/ (reason = "unexpected message type"
            /\ exists m d, msg = Some m /\ BodyOf m = OtherValue d))
  /\ (forall c limits reason,
        ReachedLimitsCall c limits = Panics reason -> reason = nilDereference)
  /\ (forall decodedMessage reason,
        logger_fields.buildLoggerFieldsCall decodedMessage = Panics reason ->
        reason = logger_fields.nilDereference).
Proof.
  repeat apply conj.
  - (* Validate returns *)
    intros c msg. unfold ValidateCall. split.
    + intros [r Hr]. destruct msg as [m|]; [|discriminate Hr].
      exists m. split; [reflexivity|].
      destruct (BodyOf m) as [[sm|]|[pm|]|d]; try discriminate Hr;
        [exists sm|exists pm|exact I]; (split; [reflexivity|]);
        intros ->; [destruct (knownQBFT _)|destruct (knownPartial _)];
        first [reflexivity|discriminate Hr].
    + intros (m & -> & Hbody).
      destruct (BodyOf m) as [p|p|d].
      * destruct Hbody as (sm & -> & Hc).
        destruct (knownQBFT _) eqn:Hk; [|eauto].
        destruct c as [c|]; [|specialize (Hc eq_refl); discriminate Hc].
        destruct (onReceiver_Validate c {| Body := SignedMessageBody sm |})
          as [r Hr]. eauto.
      * destruct Hbody as (pm & -> & Hc).
        destruct (knownPartial _) eqn:Hk; [|eauto].
        destruct c as [c|]; [|specialize (Hc eq_refl); discriminate Hc].
        destruct (onReceiver_Validate c {| Body := SignedPartialSignatureMessageBody pm |})
          as [r Hr]. eauto.
      * eauto.
  - (* Record returns *)
    intros c msg. unfold RecordCall. split.
    + intros [r Hr]. destruct msg as [m|]; [|discriminate Hr].
      exists m. split; [reflexivity|].
      destruct (BodyOf m) as [[sm|]|[pm|]|d]; try discriminate Hr;
        [exists sm|exists pm]; (split; [reflexivity|]);
        intros ->; destruct (kindOf _); first [reflexivity|discriminate Hr].
    + intros (m & -> & Hbody).
      destruct (BodyOf m) as [p|p|d]; [| |destruct Hbody].
      * destruct Hbody as (sm & -> & Hc).
        destruct (kindOf _) as [k|] eqn:Hk; [|eauto].
        destruct c as [c|]; [|specialize (Hc eq_refl); discriminate Hc].
        rewrite (onReceiver_Record c _ k Hk). eauto.
      * destruct Hbody as (pm & -> & Hc).
        destruct (kindOf _) as [k|] eqn:Hk; [|eauto].
        destruct c as [c|]; [|specialize (Hc eq_refl); discriminate Hc].
        rewrite (onReceiver_Record c _ k Hk). eauto.
  - (* ReachedLimits returns *)
    intros c limits. unfold ReachedLimitsCall, onReceiver. split.
    + intros [r Hr] ->. discriminate Hr.
    + intros Hc. destruct c as [c|]; [|congruence]. eexists. reflexivity.
  - (* buildLoggerFields returns *)
    intros [m|].
    + pose proof (buildLoggerFieldsCall_cases m) as Hcases. split.
      * intros [d Hd] m' Hm'. injection Hm' as <-.
        destruct (logger_fields.SSVMessage m), (logger_fields.SignedSSVMessage m);
          first [split; discriminate|rewrite Hcases in Hd; discriminate Hd].
      * intros H. destruct (H m eq_refl) as [H1 H2].
        destruct (logger_fields.SSVMessage m), (logger_fields.SignedSSVMessage m);
          first [exact Hcases|congruence].
    + split; [intros _ m Hm; discriminate Hm|].
      intros _. eexists. reflexivity.
  - (* the panics of Validate *)
    intros c msg reason. unfold ValidateCall.
    destruct msg as [m|]; [|congruence].
    destruct (BodyOf m) as [[sm|]|[pm|]|d]; try congruence.
    + destruct (knownQBFT _); [|discriminate].
      destruct c as [c|]; [|cbn; congruence].
      destruct (onReceiver_Validate c {| Body := SignedMessageBody sm |})
        as [r ->]. discriminate.
    + destruct (knownPartial _); [|discriminate].
      destruct c as [c|]; [|cbn; congruence].
      destruct (onReceiver_Validate c {| Body := SignedPartialSignatureMessageBody pm |})
        as [r ->]. discriminate.
  - (* the panics of Record *)
    intros c msg reason. unfold RecordCall.
    destruct msg as [m|]; [|left; congruence].
    destruct (BodyOf m) as [[sm|]|[pm|]|d] eqn:Hbody;
      try (left; congruence).
    + destruct (kindOf _) as [k|] eqn:Hk; [|discriminate].
      destruct c as [c|]; [|cbn; left; congruence].
      rewrite (onReceiver_Record c _ k Hk). discriminate.
    + destruct (kindOf _) as [k|] eqn:Hk; [|discriminate].
      destruct c as [c|]; [|cbn; left; congruence].
      rewrite (onReceiver_Record c _ k Hk). discriminate.
    + intros Hp. right. split; [congruence|]. eauto.
  - (* the panics of ReachedLimits *)
    intros [c|] limits reason; unfold ReachedLimitsCall, onReceiver, ReachedLimits;
      run; [discriminate|congruence].
  - (* the panics of buildLoggerFields *)
    intros [m|] reason; [|discriminate].
    pose proof (buildLoggerFieldsCall_cases m) as Hcases.
    destruct (logger_fields.SSVMessage m), (logger_fields.SignedSSVMessage m);
      [destruct Hcases as [d ->]; discriminate|rewrite Hcases; congruence..].
Qed.

(** C7, refuted as stated: on a message whose [SignedSSVMessage] is nil
    [buildLoggerFields] panics, it returns no descriptor. *)
Lemma buildLoggerFields_nil_pointer_panics :
  let msg := {| logger_fields.SignedSSVMessage := None;
                logger_fields.SSVMessage :=
                  Some {| logger_fields.MsgType := 0;
                          logger_fields.MsgID :=
                            {| logger_fields.GetDutyExecutorID := [];
                               logger_fields.GetRoleType := 0 |} |};
                logger_fields.BodyOf := logger_fields.OtherBody |} in
  logger_fields.buildLoggerFieldsCall (Some msg) = Panics logger_fields.nilDereference
  /\ ~ (forall decodedMessage,
          exists d, logger_fields.buildLoggerFieldsCall decodedMessage = Returns d).
Proof.
  intros msg. split; [reflexivity|].
  intros H. destruct (H (Some msg)) as [d Hd]. discriminate Hd.
Qed.

(** C7, amended.  [buildLoggerFields] of a nil message returns a descriptor,
    not nil, whose duty executor id and operator ids are empty, whose role,
    type and slot are zero, and whose [Consensus] points (it is not nil) to
    consensus fields with round and QBFT message type zero.  On a message
    that is not nil it returns a descriptor, not nil, when the embedded
    [SSVMessage] and [SignedSSVMessage] are both there, whatever the body,
    and panics with a nil dereference when one of them is nil. *)
Theorem buildLoggerFieldsCall_nil_and_pointers :
  logger_fields.buildLoggerFieldsCall None
  = Returns (Some {| logger_fields.DutyExecutorID := [];
                     logger_fields.Role := 0;
                     logger_fields.SSVMessageType := 0;
                     logger_fields.Slot := 0;
                     logger_fields.Consensus :=
                       Some {| logger_fields.Round := 0;
                               logger_fields.QBFTMessageType := 0 |};
                     logger_fields.OperatorIDs := [] |})
  /\ forall msg,
       match logger_fields.SSVMessage msg, logger_fields.SignedSSVMessage msg with
       | Some ssvMessage, Some operatorIDs =>
           exists d,
             logger_fields.buildLoggerFieldsCall (Some msg) = Returns (Some d)
             /\ logger_fields.OperatorIDs d = operatorIDs
             /\ logger_fields.SSVMessageType d = logger_fields.MsgType ssvMessage
             /\ logger_fields.Consensus d <> None
       | _, _ =>
           logger_fields.buildLoggerFieldsCall (Some msg)
           = Panics logger_fields.nilDereference
       end.
Proof.
  split; [reflexivity|].
  intros msg. unfold logger_fields.buildLoggerFieldsCall.
  destruct (logger_fields.SSVMessage msg) as [ssv|],
           (logger_fields.SignedSSVMessage msg) as [ids|]; try reflexivity.
  unfold logger_fields.buildLoggerFields. cbn [logger_fields.Body].
  destruct (logger_fields.BodyOf msg) as [[m|]|[m|]|];
    eexists; repeat split; discriminate.
Qed.

End nil_pointers.
